(** * Aura Voice: the real-time audio pipeline of [GeminiLiveClient]

    A shallow embedding of [src/services/gemini-live.ts] (capture callback,
    playback scheduling, inbound message routing, connect and disconnect)
    and of the callbacks [src/App.tsx] hands to it, together with the
    PCM16 sample codec the client imports from [utils/audio-utils].

    Conventions.
    - JavaScript numbers that carry time ([AudioContext.currentTime],
      [AudioBuffer.duration], [nextStartTime]) and audio samples are
      rationals ([Q]); comparisons are exact, and sums are the exact sums.
    - Every call the client makes on a browser or SDK object is recorded, in
      program order, in the [trace] of the [World]; objects are named by the
      identifiers the world hands out.
    - Code that can throw runs in the monad [M] of state and exceptions; a
      JavaScript [try]/[catch] is [try_catch].
    - A callback runs to its end before the next one starts; where the
      code waits ([await], [.then]) the model says what runs on
      resumption. *)

From stdpp Require Import base option list gmap strings.
From Stdlib Require Import ZArith QArith Qround Qabs Qminmax Lia.


(* ================================================================= *)
(** ** Thrown values and results *)

(** What a [throw] carries: [isError] tells whether the value is an
    [instanceof Error], [message] is its [.message] (empty when absent). *)
Record Thrown : Type := mkThrown { isError : bool; message : string }.

Inductive Result (A : Type) : Type :=
| Ok (a : A)
| Throw (e : Thrown).
Arguments Ok {A} a.
Arguments Throw {A} e.

Definition MalformedAudioError : Thrown :=
  mkThrown true "MalformedAudioError".

(* ================================================================= *)
(** ** The sample codec *)

Module Codec.

Open Scope Z_scope.

(** Modelled from the spec: the encoder of [utils/audio-utils]
    ([createPcmBlob]), which is not among the sources.  "Each float is
    clamped to [-1,1], scaled to the signed 16-bit range, and written
    little-endian"; the scale is the one the decoder divides by. *)
Definition clamp (x : Q) : Q :=
  if Qle_bool x (-1) then (-1)%Q
  else if Qle_bool 1 x then 1%Q
  else x.

(** Conversion of a number to an integer drops the fraction (rounds toward
    zero), as a store into an [Int16Array] does. *)
Definition truncate (x : Q) : Z := Z.quot (Qnum x) (Z.pos (Qden x)).

(** Modelled from the spec: scaling to the signed 16-bit range
    [-32768, 32767]; the one value that would leave it, [1.0], saturates. *)
Definition toInt16 (x : Q) : Z :=
  Z.min 32767 (Z.max (-32768) (truncate (clamp x * 32768))).

(** The two bytes of a 16-bit two's-complement integer, low byte first. *)
Definition int16ToBytes (v : Z) : list Z :=
  let u := Z.land v 65535 in
  [Z.land u 255; Z.shiftr u 8].

(** Modelled from the spec: [encode(samples) -> binary PCM16 chunk]. *)
Definition encode (samples : list Q) : list Z :=
  flat_map (fun x => int16ToBytes (toInt16 x)) samples.

(** A little-endian byte pair read back as a signed 16-bit integer. *)
Definition bytesToInt16 (lo hi : Z) : Z :=
  let u := Z.lor lo (Z.shiftl hi 8) in
  if 32768 <=? u then u - 65536 else u.

(** Modelled from the spec: "each sample reconstructed as int16 / 32768". *)
Definition fromInt16 (v : Z) : Q := Qmake v 32768.

(** Modelled from the spec: the decoder of [utils/audio-utils].  "Byte
    length must be even; fails with MalformedAudioError if not.  Produces
    sample count bytes.length / 2." *)
Fixpoint decode (bytes : list Z) : Result (list Q) :=
  match bytes with
  | [] => Ok []
  | [_] => Throw MalformedAudioError
  | lo :: hi :: rest =>
      match decode rest with
      | Ok out => Ok (fromInt16 (bytesToInt16 lo hi) :: out)
      | Throw e => Throw e
      end
  end.

(** The quantization step of the format. *)
Definition step : Q := 1 # 32768.

(** Two sample sequences agree within one quantization step, pointwise. *)
Definition within_step (s out : list Q) : Prop :=
  Forall2 (fun x y => (Qabs (y - x) <= step)%Q) s out.

Definition in_range (x : Q) : Prop := (-1 <= x)%Q /\ (x <= 1)%Q.

End Codec.

(* ================================================================= *)
(** ** Objects of the browser and of the SDK *)

(** Objects (audio contexts, nodes, streams, promises, sessions) are named
    by the identifier they got when they were created. *)
Definition Id : Type := nat.

(** [src/types.ts] *)
Inductive VoiceName : Type := Puck | Charon | Kore | Fenrir | Zephyr.

Record LiveConfig : Type := mkLiveConfig {
  voiceName : VoiceName;
  systemInstruction : string;
}.

Inductive ConnectionStatus : Type :=
| disconnected | connecting | connected | error.

(** An encoded capture chunk, as [createPcmBlob] returns it. *)
Definition Blob : Type := list Z.

(** A decoded, playable buffer: mono samples at a sample rate. *)
Record AudioBuffer : Type := mkAudioBuffer {
  samples : list Q;
  sampleRate : positive;
}.

(** [buffer.duration], in seconds. *)
Definition duration (b : AudioBuffer) : Q :=
  Z.of_nat (length (samples b)) # sampleRate b.

(** The calls the client makes, in the order it makes them. *)
Inductive Effect : Type :=
| NewAudioContext (ctx : Id) (rate : Z)
| CreateAnalyser (ctx node : Id)
| CreateGain (ctx node : Id)
| GetUserMedia (stream : Id)
| CreateMediaStreamSource (ctx stream node : Id)
| CreateScriptProcessor (ctx node : Id) (bufferSize : Z)
| CreateBufferSource (ctx source : Id)
| ConnectNode (node dest : Id)
| ConnectDestination (node ctx : Id)
| DisconnectNode (node : Id)
| CloseContext (ctx : Id)
| SourceStart (source : Id) (when : Q)
| SourceStop (source : Id)
| LiveConnect (promise : Id) (config : LiveConfig)
| SessionClose (session : Id)
| SendRealtimeInput (session : Id) (media : Blob)
| ConsoleLog (msg : string)
| ConsoleWarn (msg : string)
| ConsoleError (msg : string).

(** The promise [ai.live.connect] returns, and what waits on it: every
    capture block adds a [.then(send).catch(warn)] reaction for its chunk. *)
Inductive PromiseState : Type :=
| Pending
| Fulfilled (session : Id)
| Rejected (e : Thrown).

Record Promise : Type := mkPromise {
  pstate : PromiseState;
  reactions : list Blob;
}.

(** What the browser and the SDK decide: whether a call raises, given the
    calls made so far, and the transport decoding of [utils/audio-utils]. *)
Class Browser : Type := {
  (** [source.stop()] raises (for one already stopped, in some browsers) *)
  stop_throws : list Effect -> Id -> bool;
  (** [session.sendRealtimeInput] raises (stream already closed) *)
  send_throws : list Effect -> Id -> Blob -> option Thrown;
  (** the session object has a [close] method *)
  has_close : Id -> bool;
  (** [session.close()] raises *)
  close_throws : list Effect -> Id -> option Thrown;
  (** [base64ToBytes]: may raise on a string that is not base64 *)
  base64ToBytes : string -> Result (list Z);
}.

(* ================================================================= *)
(** ** State *)

(** The fields of [GeminiLiveClient]. *)
Record Client : Type := mkClient {
  inputAudioContext : option Id;
  outputAudioContext : option Id;
  inputSource : option Id;
  processor : option Id;
  outputGain : option Id;
  nextStartTime : Q;
  sources : list Id;          (* a [Set], in insertion order *)
  userAnalyser : option Id;
  aiAnalyser : option Id;
  session : option Id;
  sessionPromise : option Id;
}.

(** The state of [App] ([useState]). *)
Record App : Type := mkApp {
  status : ConnectionStatus;
  errorMsg : option string;
  uiUserAnalyser : option Id;
  uiAiAnalyser : option Id;
  isMicMuted : bool;
}.

Record World : Type := mkWorld {
  fresh : Id;
  trace : list Effect;
  promises : gmap Id Promise;
}.

Record Sys : Type := mkSys {
  client : Client;
  world : World;
  app : App;
}.

(** [new GeminiLiveClient()] *)
Definition newClient : Client :=
  {| inputAudioContext := None; outputAudioContext := None;
     inputSource := None; processor := None; outputGain := None;
     nextStartTime := 0; sources := [];
     userAnalyser := None; aiAnalyser := None;
     session := None; sessionPromise := None |}.

Definition newApp : App :=
  {| status := disconnected; errorMsg := None;
     uiUserAnalyser := None; uiAiAnalyser := None; isMicMuted := false |}.

Definition newWorld : World :=
  {| fresh := O; trace := []; promises := ∅ |}.

Definition initial : Sys :=
  {| client := newClient; world := newWorld; app := newApp |}.

(** Field assignments. *)
Definition set_inputAudioContext (v : option Id) (c : Client) : Client :=
  mkClient v (outputAudioContext c) (inputSource c) (processor c)
    (outputGain c) (nextStartTime c) (sources c) (userAnalyser c)
    (aiAnalyser c) (session c) (sessionPromise c).
Definition set_outputAudioContext (v : option Id) (c : Client) : Client :=
  mkClient (inputAudioContext c) v (inputSource c) (processor c)
    (outputGain c) (nextStartTime c) (sources c) (userAnalyser c)
    (aiAnalyser c) (session c) (sessionPromise c).
Definition set_inputSource (v : option Id) (c : Client) : Client :=
  mkClient (inputAudioContext c) (outputAudioContext c) v (processor c)
    (outputGain c) (nextStartTime c) (sources c) (userAnalyser c)
    (aiAnalyser c) (session c) (sessionPromise c).
Definition set_processor (v : option Id) (c : Client) : Client :=
  mkClient (inputAudioContext c) (outputAudioContext c) (inputSource c) v
    (outputGain c) (nextStartTime c) (sources c) (userAnalyser c)
    (aiAnalyser c) (session c) (sessionPromise c).
Definition set_outputGain (v : option Id) (c : Client) : Client :=
  mkClient (inputAudioContext c) (outputAudioContext c) (inputSource c)
    (processor c) v (nextStartTime c) (sources c) (userAnalyser c)
    (aiAnalyser c) (session c) (sessionPromise c).
Definition set_nextStartTime (v : Q) (c : Client) : Client :=
  mkClient (inputAudioContext c) (outputAudioContext c) (inputSource c)
    (processor c) (outputGain c) v (sources c) (userAnalyser c)
    (aiAnalyser c) (session c) (sessionPromise c).
Definition set_sources (v : list Id) (c : Client) : Client :=
  mkClient (inputAudioContext c) (outputAudioContext c) (inputSource c)
    (processor c) (outputGain c) (nextStartTime c) v (userAnalyser c)
    (aiAnalyser c) (session c) (sessionPromise c).
Definition set_userAnalyser (v : option Id) (c : Client) : Client :=
  mkClient (inputAudioContext c) (outputAudioContext c) (inputSource c)
    (processor c) (outputGain c) (nextStartTime c) (sources c) v
    (aiAnalyser c) (session c) (sessionPromise c).
Definition set_aiAnalyser (v : option Id) (c : Client) : Client :=
  mkClient (inputAudioContext c) (outputAudioContext c) (inputSource c)
    (processor c) (outputGain c) (nextStartTime c) (sources c)
    (userAnalyser c) v (session c) (sessionPromise c).
Definition set_session (v : option Id) (c : Client) : Client :=
  mkClient (inputAudioContext c) (outputAudioContext c) (inputSource c)
    (processor c) (outputGain c) (nextStartTime c) (sources c)
    (userAnalyser c) (aiAnalyser c) v (sessionPromise c).
Definition set_sessionPromise (v : option Id) (c : Client) : Client :=
  mkClient (inputAudioContext c) (outputAudioContext c) (inputSource c)
    (processor c) (outputGain c) (nextStartTime c) (sources c)
    (userAnalyser c) (aiAnalyser c) (session c) v.

(* ================================================================= *)
(** ** The monad of client code: state and exceptions *)

(** A computation runs on the state and ends normally or by a [throw];
    what it did to the state before throwing stays done. *)
Definition M (A : Type) : Type := Sys -> Result A * Sys.

#[global] Instance M_ret : MRet M := λ A a s, (Ok a, s).
#[global] Instance M_bind : MBind M := λ A B k m s,
  match m s with
  | (Ok a, s') => k a s'
  | (Throw e, s') => (Throw e, s')
  end.

Definition throw {A} (e : Thrown) : M A := λ s, (Throw e, s).

(** [try { m } catch (e) { h e }] *)
Definition try_catch {A} (m : M A) (h : Thrown -> M A) : M A := λ s,
  match m s with
  | (Ok a, s') => (Ok a, s')
  | (Throw e, s') => h e s'
  end.

Definition gets {A} (f : Client -> A) : M A := λ s, (Ok (f (client s)), s).

Definition assign (f : Client -> Client) : M unit := λ s,
  (Ok tt, mkSys (f (client s)) (world s) (app s)).

Definition setState (f : App -> App) : M unit := λ s,
  (Ok tt, mkSys (client s) (world s) (f (app s))).

Definition history : M (list Effect) := λ s, (Ok (trace (world s)), s).

(** Record a call. *)
Definition emit (e : Effect) : M unit := λ s,
  (Ok tt,
   mkSys (client s)
         (mkWorld (fresh (world s)) (trace (world s) ++ [e])
                  (promises (world s)))
         (app s)).

(** A new object. *)
Definition alloc : M Id := λ s,
  (Ok (fresh (world s)),
   mkSys (client s)
         (mkWorld (S (fresh (world s))) (trace (world s))
                  (promises (world s)))
         (app s)).

Definition getPromise (p : Id) : M (option Promise) := λ s,
  (Ok (promises (world s) !! p), s).

Definition putPromise (p : Id) (v : Promise) : M unit := λ s,
  (Ok tt,
   mkSys (client s)
         (mkWorld (fresh (world s)) (trace (world s))
                  (<[p := v]> (promises (world s))))
         (app s)).

(** [collection.forEach(f)] *)
Fixpoint forEach {A} (f : A -> M unit) (l : list A) : M unit :=
  match l with
  | [] => mret tt
  | x :: l' => f x ;; forEach f l'
  end.

(** [handle?.method()] *)
Definition optionally {A} (h : option A) (f : A -> M unit) : M unit :=
  match h with
  | Some x => f x
  | None => mret tt
  end.

(** The state a computation leaves, and how it ended. *)
Definition exec {A} (m : M A) (s : Sys) : Sys := snd (m s).
Definition returns {A} (m : M A) (s : Sys) : Prop :=
  exists a, fst (m s) = Ok a.

(* ================================================================= *)
(** ** Inbound messages *)

(** [LiveServerMessage], as far as [onmessage] looks into it. *)
Record InlineData : Type := mkInlineData { data : option string }.
Record Part : Type := mkPart { inlineData : option InlineData }.
Record ModelTurn : Type := mkModelTurn { parts : option (list Part) }.
Record ServerContent : Type := mkServerContent {
  interrupted : option bool;
  modelTurn : option ModelTurn;
}.
Record LiveServerMessage : Type := mkMessage {
  serverContent : option ServerContent;
}.

(** [serverContent?.interrupted], as a condition. *)
Definition signalsInterruption (message : LiveServerMessage) : bool :=
  match serverContent message ≫= interrupted with
  | Some true => true
  | _ => false
  end.

(** [serverContent?.modelTurn?.parts?.[0]?.inlineData?.data] *)
Definition base64Audio (message : LiveServerMessage) : option string :=
  sc ← serverContent message;
  mt ← modelTurn sc;
  ps ← parts mt;
  p ← head ps;
  i ← inlineData p;
  data i.

(** A string as a condition: the empty string counts as absent. *)
Definition truthy (o : option string) : option string :=
  match o with
  | Some EmptyString => None
  | other => other
  end.

(** The message carries an audio payload (the one the handler reads). *)
Definition audioPayload (message : LiveServerMessage) : option string :=
  truthy (base64Audio message).

(* ================================================================= *)
(** ** The client, [src/services/gemini-live.ts] *)

Section GeminiLiveClient.
Context `{Browser}.

Definition consoleLog (msg : string) : M unit := emit (ConsoleLog msg).
Definition consoleWarn (msg : string) : M unit := emit (ConsoleWarn msg).
Definition consoleError (msg : string) : M unit := emit (ConsoleError msg).

Definition InvalidStateError : Thrown := mkThrown true "InvalidStateError".

(** [source.stop()] *)
Definition source_stop (source : Id) : M unit :=
  h ← history;
  emit (SourceStop source);;
  if stop_throws h source then throw InvalidStateError else mret tt.

(** [session.sendRealtimeInput({ media })] *)
Definition sendRealtimeInput (sess : Id) (media : Blob) : M unit :=
  h ← history;
  emit (SendRealtimeInput sess media);;
  match send_throws h sess media with
  | Some e => throw e
  | None => mret tt
  end.

(** [session.close?.()] *)
Definition session_close (sess : Id) : M unit :=
  if has_close sess then
    h ← history;
    emit (SessionClose sess);;
    match close_throws h sess with
    | Some e => throw e
    | None => mret tt
    end
  else mret tt.

(** [sources.add(source)] *)
Definition set_add (x : Id) (l : list Id) : list Id :=
  if bool_decide (x ∈ l) then l else l ++ [x].

(** [sources.delete(source)] *)
Definition set_delete (x : Id) (l : list Id) : list Id :=
  filter (λ y, y ≠ x) l.

(** [scheduleAudioChunk(buffer)]; [now] is what
    [outputAudioContext.currentTime] reads when the function runs. *)
Definition scheduleAudioChunk (now : Q) (buffer : AudioBuffer) : M unit :=
  ctx ← gets outputAudioContext;
  gain ← gets outputGain;
  match ctx, gain with
  | Some ctx, Some gain =>
      source ← alloc;
      emit (CreateBufferSource ctx source);;
      emit (ConnectNode source gain);;
      next ← gets nextStartTime;
      (if negb (Qle_bool now next)
       then assign (set_nextStartTime now) else mret tt);;
      start ← gets nextStartTime;
      emit (SourceStart source start);;
      assign (set_nextStartTime (start + duration buffer)%Q);;
      srcs ← gets sources;
      assign (set_sources (set_add source srcs))
  | _, _ => mret tt
  end.

(** [source.onended], the handler [scheduleAudioChunk] registers. *)
Definition onended (source : Id) : M unit :=
  srcs ← gets sources;
  assign (set_sources (set_delete source srcs)).

(** [stopAllSources()] *)
Definition stopAllSources : M unit :=
  srcs ← gets sources;
  forEach (λ source, try_catch (source_stop source) (λ _, mret tt)) srcs;;
  assign (set_sources []).

(** The interruption branch of [onmessage]: the scheduler's interrupt. *)
Definition interrupt : M unit :=
  stopAllSources;;
  assign (set_nextStartTime 0).

(** Modelled from the spec: [decodeAudioData] of [utils/audio-utils],
    which is not among the sources: the codec's decoder, giving a buffer of
    [bytes.length / 2] samples at the requested rate. *)
Definition decodeAudioData (pcmData : list Z) (ctx : Id) (rate : positive)
    (channels : Z) : M AudioBuffer :=
  match Codec.decode pcmData with
  | Ok smp => mret (mkAudioBuffer smp rate)
  | Throw e => throw e
  end.

Definition liftR {A} (r : Result A) : M A :=
  match r with
  | Ok a => mret a
  | Throw e => throw e
  end.

(** The [onmessage] callback; [now] is the output clock when the decoded
    chunk is scheduled. *)
Definition onmessage (now : Q) (message : LiveServerMessage) : M unit :=
  (if signalsInterruption message then interrupt else mret tt);;
  ctx ← gets outputAudioContext;
  gain ← gets outputGain;
  match audioPayload message, ctx, gain with
  | Some b64, Some ctx, Some _ =>
      try_catch
        (pcmData ← liftR (base64ToBytes b64);
         audioBuffer ← decodeAudioData pcmData ctx 24000 1;
         scheduleAudioChunk now audioBuffer)
        (λ err, consoleError "Error decoding audio")
  | _, _, _ => mret tt
  end.

(** Modelled from the spec: [createPcmBlob] of [utils/audio-utils]: the
    codec's encoder (the transport encoding of the bytes is left out). *)
Definition createPcmBlob (inputData : list Q) : Blob := Codec.encode inputData.

(** [promise.then(session => session.sendRealtimeInput({ media }))
            .catch(err => console.warn(...))]: the reaction waits on the
    promise; it runs when the promise is settled, after the current
    callback has returned. *)
Definition thenSend (p : Id) (media : Blob) : M unit :=
  v ← getPromise p;
  match v with
  | Some v => putPromise p (mkPromise (pstate v) (reactions v ++ [media]))
  | None => mret tt
  end.

(** The [onaudioprocess] callback of the script processor. *)
Definition onaudioprocess (inputData : list Q) : M unit :=
  let pcmBlob := createPcmBlob inputData in
  sp ← gets sessionPromise;
  match sp with
  | Some p => thenSend p pcmBlob
  | None => mret tt
  end.

(** One waiting reaction, run on a settled promise. *)
Definition runReaction (st : PromiseState) (media : Blob) : M unit :=
  match st with
  | Fulfilled sess =>
      try_catch (sendRealtimeInput sess media)
                (λ err, consoleWarn "Failed to send audio")
  | Rejected e => consoleWarn "Failed to send audio"
  | Pending => mret tt
  end.

(** The reactions of a settled promise run, in the order they were added;
    those of a pending promise keep waiting. *)
Definition runReactions (p : Id) : M unit :=
  v ← getPromise p;
  match v with
  | Some (mkPromise Pending _) | None => mret tt
  | Some (mkPromise st rs) =>
      putPromise p (mkPromise st []);;
      forEach (runReaction st) rs
  end.

(** [disconnect()] *)
Definition disconnect : M unit :=
  stopAllSources;;
  sess ← gets session;
  optionally sess (λ sess,
    try_catch (session_close sess)
              (λ e, consoleWarn "Error closing session"));;
  assign (set_session None);;
  assign (set_sessionPromise None);;
  (p ← gets processor; optionally p (λ n, emit (DisconnectNode n)));;
  (n ← gets inputSource; optionally n (λ n, emit (DisconnectNode n)));;
  (n ← gets userAnalyser; optionally n (λ n, emit (DisconnectNode n)));;
  (n ← gets aiAnalyser; optionally n (λ n, emit (DisconnectNode n)));;
  (n ← gets outputGain; optionally n (λ n, emit (DisconnectNode n)));;
  (c ← gets inputAudioContext; optionally c (λ c, emit (CloseContext c)));;
  (c ← gets outputAudioContext; optionally c (λ c, emit (CloseContext c)));;
  assign (set_inputAudioContext None);;
  assign (set_outputAudioContext None);;
  assign (set_processor None);;
  assign (set_inputSource None).

(** What the browser and the service answer during one [connect]:
    [None] where the step succeeds, the thrown value where it fails. *)
Record Outcome : Type := mkOutcome {
  newInputContext : option Thrown;
  newOutputContext : option Thrown;
  getUserMedia : option Thrown;       (* the promise rejects *)
  liveConnect : option Thrown;        (* the session promise rejects *)
}.

Definition failing (o : option Thrown) : M unit :=
  match o with
  | Some e => throw e
  | None => mret tt
  end.

(** [new AudioContext({ sampleRate })] *)
Definition newAudioContext (o : option Thrown) (rate : Z) : M Id :=
  failing o;;
  ctx ← alloc;
  emit (NewAudioContext ctx rate);;
  mret ctx.

(** The [try] block of [connect], up to and including the call of
    [ai.live.connect] (steps 1 to 5): the session promise is pending. *)
Definition connect_open (o : Outcome) (config : LiveConfig) : M unit :=
  ictx ← newAudioContext (newInputContext o) 16000;
  assign (set_inputAudioContext (Some ictx));;
  octx ← newAudioContext (newOutputContext o) 24000;
  assign (set_outputAudioContext (Some octx));;
  ua ← alloc; emit (CreateAnalyser ictx ua);;
  assign (set_userAnalyser (Some ua));;
  aa ← alloc; emit (CreateAnalyser octx aa);;
  assign (set_aiAnalyser (Some aa));;
  g ← alloc; emit (CreateGain octx g);;
  assign (set_outputGain (Some g));;
  emit (ConnectNode g aa);;
  emit (ConnectDestination aa octx);;
  failing (getUserMedia o);;
  stream ← alloc; emit (GetUserMedia stream);;
  src ← alloc; emit (CreateMediaStreamSource ictx stream src);;
  assign (set_inputSource (Some src));;
  emit (ConnectNode src ua);;
  pr ← alloc; emit (CreateScriptProcessor ictx pr 4096);;
  assign (set_processor (Some pr));;
  emit (ConnectNode ua pr);;
  emit (ConnectDestination pr ictx);;
  p ← alloc; emit (LiveConnect p config);;
  putPromise p (mkPromise Pending []);;
  assign (set_sessionPromise (Some p)).

(** The service settles promise [p]. *)
Definition settle (o : option Thrown) (p : Id) : M unit :=
  v ← getPromise p;
  match v, o with
  | Some (mkPromise Pending rs), None =>
      sess ← alloc; putPromise p (mkPromise (Fulfilled sess) rs)
  | Some (mkPromise Pending rs), Some e =>
      putPromise p (mkPromise (Rejected e) rs)
  | _, _ => mret tt
  end.

(** [await promise] *)
Definition await (p : option Id) : M (option Id) :=
  match p with
  | None => mret None
  | Some p =>
      v ← getPromise p;
      match v with
      | Some (mkPromise (Fulfilled sess) _) => mret (Some sess)
      | Some (mkPromise (Rejected e) _) => throw e
      | _ => mret None
      end
  end.

(** The rest of the [try] block: [this.session = await this.sessionPromise],
    resumed when the promise is settled. *)
Definition connect_established : M unit :=
  sp ← gets sessionPromise;
  sess ← await sp;
  assign (set_session sess).

(** The [catch] block of [connect]. *)
Definition connect_catch (onError : Thrown -> M unit) (error : Thrown)
    : M unit :=
  consoleError "Connection failed";;
  disconnect;;
  onError (if isError error then error else mkThrown true "Failed to connect").

(** [connect(config, onDisconnect, onError)], run to its end with nothing
    else in between; the service answers as [o] says. *)
Definition connect (o : Outcome) (config : LiveConfig)
    (onDisconnect : M unit) (onError : Thrown -> M unit) : M unit :=
  try_catch
    (connect_open o config;;
     sp ← gets sessionPromise;
     optionally sp (settle (liveConnect o));;
     connect_established)
    (connect_catch onError).

(** The [onopen], [onclose] and [onerror] callbacks given to the service. *)
Definition onopen : M unit := consoleLog "Gemini Live Connection Opened".

Definition onclose (onDisconnect : M unit) : M unit :=
  consoleLog "Gemini Live Connection Closed";;
  onDisconnect.

Definition onerror (onError : Thrown -> M unit) (err : Thrown) : M unit :=
  consoleError "Gemini Live Error";;
  onError (mkThrown true
             (match message err with
              | EmptyString => "Unknown Live API Error"
              | msg => msg
              end)).

(* ----------------------------------------------------------------- *)
(** *** The caller, [src/App.tsx] *)

(** The [onDisconnect] callback [handleConnect] passes. *)
Definition app_onDisconnect : M unit :=
  setState (λ a, mkApp disconnected (errorMsg a) None None (isMicMuted a)).

(** The [onError] callback [handleConnect] passes. *)
Definition app_onError (err : Thrown) : M unit :=
  consoleError (message err);;
  setState (λ a, mkApp error (Some (message err)) None None (isMicMuted a)).

Definition handleConnect (o : Outcome) (config : LiveConfig) : M unit :=
  setState (λ a, mkApp connecting None (uiUserAnalyser a) (uiAiAnalyser a)
                       (isMicMuted a));;
  connect o config app_onDisconnect app_onError;;
  ua ← gets userAnalyser;
  aa ← gets aiAnalyser;
  setState (λ a, mkApp connected (errorMsg a) ua aa (isMicMuted a)).

Definition handleDisconnect : M unit :=
  disconnect;;
  setState (λ a, mkApp disconnected (errorMsg a) None None (isMicMuted a)).

End GeminiLiveClient.

(* ================================================================= *)
(** ** Vocabulary of the properties *)

(** The client holds no session and none of the resources [disconnect]
    gives back. *)
Definition Idle (c : Client) : Prop :=
  session c = None /\ sessionPromise c = None /\
  inputAudioContext c = None /\ outputAudioContext c = None /\
  processor c = None /\ inputSource c = None /\ sources c = [].

(** The client holds an established session and its audio graphs. *)
Definition Active (c : Client) : Prop :=
  is_Some (session c) /\ is_Some (sessionPromise c) /\
  is_Some (inputAudioContext c) /\ is_Some (outputAudioContext c) /\
  is_Some (processor c) /\ is_Some (inputSource c) /\
  is_Some (outputGain c).

(** The playback path is up: [scheduleAudioChunk] goes past its guard. *)
Definition playbackReady (c : Client) : Prop :=
  is_Some (outputAudioContext c) /\ is_Some (outputGain c).

(** The calls a computation makes on a state. *)
Definition calls {A} (m : M A) (s : Sys) : list Effect :=
  drop (length (trace (world s))) (trace (world (exec m s))).

(** The start time a source was given, if it was started. *)
Fixpoint startOf (source : Id) (t : list Effect) : option Q :=
  match t with
  | [] => None
  | SourceStart x w :: t' =>
      if bool_decide (x = source) then Some w else startOf source t'
  | _ :: t' => startOf source t'
  end.

Definition isSend (e : Effect) : bool :=
  match e with
  | SendRealtimeInput _ _ => true
  | _ => false
  end.

(** The state [scheduleAudioChunk] leaves when the playback path is up. *)
Definition scheduled (now : Q) (buffer : AudioBuffer) (ctx gain : Id)
    (s : Sys) : Sys :=
  let source := fresh (world s) in
  let start := Qmax (nextStartTime (client s)) now in
  mkSys
    (set_sources (set_add source (sources (client s)))
       (set_nextStartTime (start + duration buffer)%Q (client s)))
    (mkWorld (S source)
       (trace (world s) ++
          [CreateBufferSource ctx source; ConnectNode source gain;
           SourceStart source start])
       (promises (world s)))
    (app s).

(** A browser in which no call raises; its transport decoding takes each
    character of the string for one byte. *)
Definition quietBrowser : Browser :=
  {| stop_throws := λ _ _, false;
     send_throws := λ _ _ _, None;
     has_close := λ _, true;
     close_throws := λ _ _, None;
     base64ToBytes := λ str,
       Ok (map (λ ch, Z.of_N (Ascii.N_of_ascii ch))
               (String.list_ascii_of_string str)) |}.

Definition isStopOf (source : Id) (e : Effect) : bool :=
  match e with
  | SourceStop x => bool_decide (x = source)
  | _ => false
  end.

Definition isCloseOf (sess : Id) (e : Effect) : bool :=
  match e with
  | SessionClose x => bool_decide (x = sess)
  | _ => false
  end.

(** A browser that raises where it may: stopping a source twice, sending
    on or closing a session that was closed. *)
Definition strictBrowser : Browser :=
  {| stop_throws := λ h source, existsb (isStopOf source) h;
     send_throws := λ h sess _,
       if existsb (isCloseOf sess) h
       then Some (mkThrown true "WebSocket is already in CLOSING or CLOSED state")
       else None;
     has_close := λ _, true;
     close_throws := λ h sess,
       if existsb (isCloseOf sess) h
       then Some (mkThrown true "already closed") else None;
     base64ToBytes := λ str,
       if bool_decide (Ascii.Space ∈ String.list_ascii_of_string str)
       then Throw (mkThrown true "InvalidCharacterError")
       else Ok (map (λ ch, Z.of_N (Ascii.N_of_ascii ch))
                    (String.list_ascii_of_string str)) |}.

(** Sample data. *)
Definition sampleConfig : LiveConfig :=
  mkLiveConfig Puck "You are a concise, helpful, and friendly AI assistant.".

Definition allGood : Outcome := mkOutcome None None None None.

(** One second and half a second of silence. *)
Definition chunkA : AudioBuffer := mkAudioBuffer [0%Q; 0%Q] 2.
Definition chunkB : AudioBuffer := mkAudioBuffer [0%Q] 2.

(** The system once [handleConnect] has run and the service accepted. *)
Definition connectedSys : Sys :=
  exec (handleConnect (H := quietBrowser) allGood sampleConfig) initial.

(** The two decoding steps of [onmessage] on a payload, taken together. *)
Definition decodePayload `{Browser} (b64 : string) : Result AudioBuffer :=
  match base64ToBytes b64 with
  | Ok pcmData =>
      match Codec.decode pcmData with
      | Ok smp => Ok (mkAudioBuffer smp 24000)
      | Throw e => Throw e
      end
  | Throw e => Throw e
  end.

(** The state in which [onmessage] comes to the audio payload. *)
Definition afterInterruption `{Browser} (message : LiveServerMessage)
    (s : Sys) : Sys :=
  if signalsInterruption message then exec interrupt s else s.

(** The [stop] calls of the interruption branch, if it is taken. *)
Definition stopsOf (message : LiveServerMessage) (s : Sys) : list Effect :=
  if signalsInterruption message
  then map SourceStop (sources (client s)) else [].

Definition isPlayback (e : Effect) : bool :=
  match e with
  | CreateBufferSource _ _ | SourceStart _ _ => true
  | _ => false
  end.

(** Sample messages: audio only, interruption with audio, and neither. *)
Definition audioMessage (b64 : string) : LiveServerMessage :=
  mkMessage (Some (mkServerContent None
    (Some (mkModelTurn (Some [mkPart (Some (mkInlineData (Some b64)))]))))).

Definition interruptedAudioMessage (b64 : string) : LiveServerMessage :=
  mkMessage (Some (mkServerContent (Some true)
    (Some (mkModelTurn (Some [mkPart (Some (mkInlineData (Some b64)))]))))).

Definition emptyMessage : LiveServerMessage := mkMessage None.

(** The client after [disconnect]: what it nulls and what it keeps. *)
Definition tornDown (c : Client) : Client :=
  mkClient None None None None (outputGain c) (nextStartTime c) []
           (userAnalyser c) (aiAnalyser c) None None.

(** A state with more calls recorded. *)
Definition logged (cs : list Effect) (s : Sys) : Sys :=
  mkSys (client s)
        (mkWorld (fresh (world s)) (trace (world s) ++ cs)
                 (promises (world s)))
        (app s).

Definition callOn (h : option Id) (f : Id -> Effect) : list Effect :=
  match h with
  | Some x => [f x]
  | None => []
  end.

(** The calls of the [close] block of [disconnect], after history [h]. *)
Definition closeCalls `{Browser} (h : list Effect) (sess : option Id)
    : list Effect :=
  match sess with
  | Some x =>
      if has_close x then
        SessionClose x ::
          match close_throws h x with
          | Some _ => [ConsoleWarn "Error closing session"]
          | None => []
          end
      else []
  | None => []
  end.

(** The calls of [disconnect], in order. *)
Definition disconnectCalls `{Browser} (s : Sys) : list Effect :=
  let c := client s in
  let stops := map SourceStop (sources c) in
  stops ++
  closeCalls (trace (world s) ++ stops) (session c) ++
  callOn (processor c) DisconnectNode ++
  callOn (inputSource c) DisconnectNode ++
  callOn (userAnalyser c) DisconnectNode ++
  callOn (aiAnalyser c) DisconnectNode ++
  callOn (outputGain c) DisconnectNode ++
  callOn (inputAudioContext c) CloseContext ++
  callOn (outputAudioContext c) CloseContext.

(** The first step of [connect] that fails, with what it throws. *)
Definition firstFailure (o : Outcome) : option Thrown :=
  match newInputContext o, newOutputContext o, getUserMedia o, liveConnect o with
  | Some e, _, _, _ => Some e
  | None, Some e, _, _ => Some e
  | None, None, Some e, _ => Some e
  | None, None, None, r => r
  end.

(** The audio graph built among the calls [cs] is taken down among them:
    every audio context created there is closed there, every node created
    there (analyser, gain, stream source, script processor) is
    disconnected there.  The media stream of [getUserMedia] is not an
    object of the graph; what is done with it is [onStream]. *)
Definition graphReleased (cs : list Effect) : Prop :=
  (forall ctx rate, NewAudioContext ctx rate ∈ cs -> CloseContext ctx ∈ cs) /\
  (forall ctx n, CreateAnalyser ctx n ∈ cs -> DisconnectNode n ∈ cs) /\
  (forall ctx n, CreateGain ctx n ∈ cs -> DisconnectNode n ∈ cs) /\
  (forall ctx st n,
     CreateMediaStreamSource ctx st n ∈ cs -> DisconnectNode n ∈ cs) /\
  (forall ctx n sz,
     CreateScriptProcessor ctx n sz ∈ cs -> DisconnectNode n ∈ cs).

(** The calls that name the media stream [st]. *)
Definition onStream (st : Id) (e : Effect) : bool :=
  match e with
  | GetUserMedia x | CreateMediaStreamSource _ x _ => bool_decide (x = st)
  | _ => false
  end.

(** Calls that give something back or stop something. *)
Definition isTeardown (e : Effect) : bool :=
  match e with
  | CloseContext _ | DisconnectNode _ | SourceStop _ | SessionClose _ => true
  | _ => false
  end.

(** The system while [connect] waits for the service: everything set up,
    the session promise pending. *)
Definition pendingSys : Sys :=
  exec (connect_open allGood sampleConfig) initial.

(** The calls of the reactions [rs] on a fulfilled promise, after history
    [h]: one send per waiting chunk, and a warning where the send raises. *)
Fixpoint sendLog `{Browser} (h : list Effect) (sess : Id) (rs : list Blob)
    : list Effect :=
  match rs with
  | [] => []
  | media :: rs' =>
      let step :=
        SendRealtimeInput sess media ::
          match send_throws h sess media with
          | Some _ => [ConsoleWarn "Failed to send audio"]
          | None => []
          end in
      step ++ sendLog (h ++ step) sess rs'
  end.

(** The promise [p] with one more chunk waiting on it. *)
Definition waitingOn (p : Id) (media : Blob) (s : Sys) : Sys :=
  match promises (world s) !! p with
  | Some v =>
      mkSys (client s)
            (mkWorld (fresh (world s)) (trace (world s))
                     (<[p := mkPromise (pstate v) (reactions v ++ [media])]>
                        (promises (world s))))
            (app s)
  | None => s
  end.

(* ================================================================= *)
(** ** The rest of [src/App.tsx] *)

(** [toggleMic]: it only updates the state shown. *)
Definition toggleMic : M unit :=
  setState (λ a, mkApp (status a) (errorMsg a) (uiUserAnalyser a)
                       (uiAiAnalyser a) (negb (isMicMuted a))).

(** What [App] renders, by status: the connect trigger
    ([status === 'disconnected' || status === 'error']), the controls with
    the End Session button ([status === 'connected'], otherwise
    [pointer-events-none]), and the settings button, disabled while
    connected or connecting. *)
Definition showsConnectTrigger (st : ConnectionStatus) : bool :=
  match st with
  | disconnected | error => true
  | _ => false
  end.

Definition controlsActive (st : ConnectionStatus) : bool :=
  match st with
  | connected => true
  | _ => false
  end.

Definition settingsButtonDisabled (st : ConnectionStatus) : bool :=
  match st with
  | connected | connecting => true
  | _ => false
  end.

(** The [isActive] props of the two visualizers. *)
Definition aiOrbActive (a : App) : bool := controlsActive (status a).
Definition userOrbActive (a : App) : bool :=
  controlsActive (status a) && negb (isMicMuted a).

(* ================================================================= *)
(** ** The visualizer, [OrbVisualizer] *)

Module OrbVisualizer.

(** [dataArray.reduce((a, b) => a + b, 0)] *)
Definition sum (dataArray : list Z) : Z := foldl Z.add 0%Z dataArray.

(** [average] in [draw]: zero unless there is an analyser and the orb is
    active, else the mean of the frequency bytes. *)
Definition average (analyser : option (list Z)) (isActive : bool) : Q :=
  match analyser with
  | Some dataArray =>
      if isActive
      then (inject_Z (sum dataArray) / inject_Z (Z.of_nat (length dataArray)))%Q
      else 0%Q
  | None => 0%Q
  end.

(** [glow = isActive ? Math.max(10, average * 1.5) : 10] *)
Definition glow (isActive : bool) (avg : Q) : Q :=
  if isActive then Qmax 10 (avg * (3 # 2)) else 10%Q.

Definition points : Z := 60.

(** [Math.floor((i / points) * (dataArray.length / 2))] *)
Definition binIndex (i : Z) (len : nat) : Z :=
  Qfloor ((inject_Z i / inject_Z points) * (inject_Z (Z.of_nat len) / 2))%Q.

(** [dataArray[binIndex]]: [None] stands for [undefined]. *)
Definition binValue (dataArray : list Z) (i : Z) : option Z :=
  let b := binIndex i (length dataArray) in
  if (b <? 0)%Z then None else dataArray !! Z.to_nat b.

End OrbVisualizer.

(* ================================================================= *)
(** ** More vocabulary *)

(** The live-set holds each source once, and only sources that exist. *)
Definition liveOk (s : Sys) : Prop :=
  NoDup (sources (client s)) /\
  Forall (λ x, (x < fresh (world s))%nat) (sources (client s)).

(** The start times given in a list of calls, in order. *)
Definition startTimes (cs : list Effect) : list Q :=
  omap (λ e, match e with SourceStart _ w => Some w | _ => None end) cs.

(** A burst: buffers enqueued one after the other at one clock reading. *)
Definition playAll (now : Q) (buffers : list AudioBuffer) : M unit :=
  forEach (scheduleAudioChunk now) buffers.

(** Back-to-back start times from a cursor, and the cursor at the end. *)
Fixpoint startsFrom (cursor : Q) (buffers : list AudioBuffer) : list Q :=
  match buffers with
  | [] => []
  | b :: bs => cursor :: startsFrom (cursor + duration b)%Q bs
  end.

Definition cursorFrom (cursor : Q) (buffers : list AudioBuffer) : Q :=
  foldl (λ acc b, (acc + duration b)%Q) cursor buffers.

(** Several capture blocks in a row. *)
Definition captureAll (blocks : list (list Q)) : M unit :=
  forEach onaudioprocess blocks.

(** The system after [connect] has run with callbacks that do nothing. *)
Definition established `{Browser} (o : Outcome) (config : LiveConfig)
    (s : Sys) : Sys :=
  exec (connect o config (mret tt) (λ _, mret tt)) s.

(** The text of the error [onerror] hands to the caller. *)
Definition shownMessage (err : Thrown) : string :=
  match message err with
  | EmptyString => "Unknown Live API Error"
  | msg => msg
  end.

(* ================================================================= *)
(** * Properties *)

Module CodecFacts.
Import Codec.
Open Scope Z_scope.

(** Truncation is division with a remainder on the side of the dividend. *)
Lemma truncate_spec (n : Z) (d : positive) :
  exists r, n = Z.pos d * truncate (n # d) + r /\
            (0 <= n -> 0 <= r < Z.pos d) /\
            (n <= 0 -> - Z.pos d < r <= 0).
Proof.
  exists (Z.rem n (Z.pos d)). unfold truncate. cbn [Qnum Qden].
  split; [apply Z.quot_rem'|]. split; intro Hn.
  - apply Z.rem_bound_pos_pos; lia.
  - apply Z.rem_bound_pos_neg; lia.
Qed.

Lemma clamp_cases (x : Q) :
  (clamp x = (-1)%Q /\ (x <= -1)%Q) \/
  (clamp x = 1%Q /\ (1 <= x)%Q) \/
  (clamp x = x /\ (-1 < x)%Q /\ (x < 1)%Q).
Proof.
  unfold clamp.
  destruct (Qle_bool x (-1)) eqn:E1.
  - left. split; [reflexivity|]. now apply Qle_bool_iff.
  - destruct (Qle_bool 1 x) eqn:E2.
    + right; left. split; [reflexivity|]. now apply Qle_bool_iff.
    + right; right. split; [reflexivity|]. split; apply Qnot_le_lt; intro H;
        apply Qle_bool_iff in H; congruence.
Qed.

(** The integer a sample is stored as lies in the signed 16-bit range. *)
Lemma toInt16_range (x : Q) : -32768 <= toInt16 x <= 32767.
Proof. unfold toInt16. lia. Qed.

(** Closeness of a stored integer, stated on numerators. *)
Lemma fromInt16_close (t n : Z) (d : positive) :
  Z.abs (t * Z.pos d - n * 32768) <= Z.pos d ->
  (Qabs (fromInt16 t - (n # d)) <= step)%Q.
Proof.
  intros H. apply Qabs_Qle_condition.
  unfold fromInt16, step, Qle, Qminus, Qplus, Qopp. cbn [Qnum Qden].
  rewrite !Pos2Z.inj_mul. split; nia.
Qed.

(** One sample: the stored integer, read back as a fraction of 32768, is
    within one step of a sample of [-1, 1]. *)
Lemma toInt16_close (x : Q) :
  in_range x -> (Qabs (fromInt16 (toInt16 x) - x) <= step)%Q.
Proof.
  intros [Hlo Hhi]. destruct x as [n d].
  apply fromInt16_close. unfold toInt16.
  destruct (clamp_cases (n # d)) as [[E Hx]|[[E Hx]|[E [Hx1 Hx2]]]]; rewrite E.
  - change (truncate (-1 * 32768)) with (-32768).
    change (Z.min 32767 (Z.max (-32768) (-32768))) with (-32768).
    unfold Qle in *. cbn [Qnum Qden] in *. lia.
  - change (truncate (1 * 32768)) with 32768.
    change (Z.min 32767 (Z.max (-32768) 32768)) with 32767.
    unfold Qle in *. cbn [Qnum Qden] in *. lia.
  - change ((n # d) * 32768)%Q with ((n * 32768) # (d * 1)).
    rewrite Pos.mul_1_r.
    destruct (truncate_spec (n * 32768) d) as (r & Hr & Hpos & Hneg).
    set (t := truncate (n * 32768 # d)) in *.
    unfold Qlt in *. cbn [Qnum Qden] in *.
    assert (-32768 < t < 32768) by
      (destruct (Z_le_gt_dec 0 n);
       [specialize (Hpos ltac:(lia))|specialize (Hneg ltac:(lia))]; nia).
    rewrite Z.max_r, Z.min_r by lia.
    destruct (Z_le_gt_dec 0 n);
      [specialize (Hpos ltac:(lia))|specialize (Hneg ltac:(lia))]; nia.
Qed.

(** The byte pair of a signed 16-bit integer reads back as that integer. *)
Lemma bytesToInt16_int16ToBytes (v : Z) :
  -32768 <= v <= 32767 ->
  match int16ToBytes v with
  | [lo; hi] => bytesToInt16 lo hi = v
  | _ => False
  end.
Proof.
  intros Hv. unfold int16ToBytes, bytesToInt16. cbv zeta.
  change 65535 with (Z.ones 16). change 255 with (Z.ones 8).
  rewrite !Z.land_ones by lia.
  rewrite Z.shiftr_div_pow2, Z.shiftl_mul_pow2 by lia.
  set (u := v mod 2 ^ 16).
  assert (Hu : 0 <= u < 65536) by (subst u; apply Z.mod_pos_bound; lia).
  assert (Hor : Z.lor (u mod 2 ^ 8) (u / 2 ^ 8 * 2 ^ 8) = u).
  { rewrite <- Z.lxor_lor, <- Z.add_nocarry_lxor.
    - rewrite Z.add_comm, Z.mul_comm. symmetry. apply Z.div_mod. lia.
    - rewrite <- Z.shiftl_mul_pow2, <- Z.land_ones by lia.
      apply Z.bits_inj'. intros k Hk.
      rewrite Z.land_spec, Z.land_spec, Z.bits_0.
      destruct (Z_lt_ge_dec k 8).
      + rewrite Z.shiftl_spec_low by lia. now rewrite andb_false_r.
      + rewrite Z.ones_spec_high by lia. now rewrite andb_false_r.
    - rewrite <- Z.shiftl_mul_pow2, <- Z.land_ones by lia.
      apply Z.bits_inj'. intros k Hk.
      rewrite Z.land_spec, Z.land_spec, Z.bits_0.
      destruct (Z_lt_ge_dec k 8).
      + rewrite Z.shiftl_spec_low by lia. now rewrite andb_false_r.
      + rewrite Z.ones_spec_high by lia. now rewrite andb_false_r. }
  rewrite Hor. subst u.
  destruct (32768 <=? v mod 2 ^ 16) eqn:E;
    [apply Z.leb_le in E|apply Z.leb_gt in E];
    change (2 ^ 16) with 65536 in *;
    pose proof (Z.div_mod v 65536 ltac:(lia));
    pose proof (Z.mod_pos_bound v 65536 ltac:(lia)); lia.
Qed.

Lemma decode_encode_ok (s : list Q) :
  decode (encode s) = Ok (map (λ x, fromInt16 (toInt16 x)) s).
Proof.
  induction s as [|x s IH]; [reflexivity|].
  pose proof (bytesToInt16_int16ToBytes _ (toInt16_range x)) as Hb.
  change (encode (x :: s)) with (int16ToBytes (toInt16 x) ++ encode s).
  unfold int16ToBytes in *. cbv zeta in *.
  cbn -[toInt16 Z.land Z.shiftr bytesToInt16 fromInt16 encode].
  rewrite IH, Hb. reflexivity.
Qed.

(** The decoder accepts exactly the byte sequences of even length. *)
Lemma decode_parity (bytes : list Z) :
  (Nat.odd (length bytes) = true -> decode bytes = Throw MalformedAudioError) /\
  (Nat.odd (length bytes) = false ->
   exists out, decode bytes = Ok out /\ length bytes = (2 * length out)%nat).
Proof.
  assert (P : forall l : list Z,
    ((Nat.odd (length l) = true -> decode l = Throw MalformedAudioError) /\
     (Nat.odd (length l) = false ->
      exists out, decode l = Ok out /\ length l = (2 * length out)%nat)) /\
    (forall x,
     (Nat.odd (length (x :: l)) = true ->
      decode (x :: l) = Throw MalformedAudioError) /\
     (Nat.odd (length (x :: l)) = false ->
      exists out, decode (x :: l) = Ok out /\
                  length (x :: l) = (2 * length out)%nat))).
  { induction l as [|y l [IH1 IH2]].
    - split; [split|intros x; split]; try discriminate; try reflexivity.
      intros _. now exists [].
    - split; [apply IH2|]. intros x.
      change (Nat.odd (length (x :: y :: l))) with (Nat.odd (length l)).
      cbn [decode]. destruct IH1 as [Ho He]. split.
      + intros Hodd. now rewrite (Ho Hodd).
      + intros Hev. destruct (He Hev) as (out & -> & Hl).
        eexists. split; [reflexivity|]. cbn [length]. lia. }
  apply P.
Qed.

Lemma encode_length (s : list Q) :
  Z.of_nat (List.length (encode s)) = 2 * Z.of_nat (List.length s).
Proof.
  induction s as [|x s IH]; [reflexivity|].
  unfold encode in *. cbn [flat_map]. rewrite length_app.
  cbn [int16ToBytes List.length]. lia.
Qed.

Lemma int16ToBytes_bytes (v : Z) :
  Forall (λ b, 0 <= b < 256) (int16ToBytes v).
Proof.
  unfold int16ToBytes. cbv zeta.
  change 65535 with (Z.ones 16). change 255 with (Z.ones 8).
  rewrite !Z.land_ones by lia. rewrite Z.shiftr_div_pow2 by lia.
  pose proof (Z.mod_pos_bound v (2 ^ 16) ltac:(lia)) as Hu.
  repeat constructor.
  - apply Z.mod_pos_bound. lia.
  - apply Z.mod_pos_bound. lia.
  - apply Z.div_pos; lia.
  - apply Z.div_lt_upper_bound; lia.
Qed.

Lemma encode_bytes (s : list Q) : Forall (λ b, 0 <= b < 256) (encode s).
Proof.
  induction s as [|x s IH]; [constructor|].
  change (encode (x :: s)) with (int16ToBytes (toInt16 x) ++ encode s).
  apply Forall_app. split; [apply int16ToBytes_bytes|exact IH].
Qed.

(** C6. For samples in [-1, 1], encoding gives exactly two bytes per
    sample, and decoding the encoded bytes succeeds, gives as many samples
    as were encoded, each the stored 16-bit integer over 32768 and within
    one quantization step, 1/32768, of the original. *)
Theorem C6_codec_roundtrip (s : list Q) :
  Forall in_range s ->
  Z.of_nat (length (encode s)) = 2 * Z.of_nat (length s) /\
  Forall (λ b, 0 <= b < 256) (encode s) /\
  exists out,
    decode (encode s) = Ok out /\
    length out = length s /\
    out = map (λ x, fromInt16 (toInt16 x)) s /\
    within_step s out.
Proof.
  intros Hs. split; [apply encode_length|]. split; [apply encode_bytes|].
  eexists. split; [apply decode_encode_ok|].
  split; [apply length_map|]. split; [reflexivity|].
  unfold within_step. induction Hs as [|x s Hx Hs IH]; cbn [map].
  - constructor.
  - constructor; [now apply toInt16_close|exact IH].
Qed.

Lemma C6_codec_roundtrip_witness :
  decode (encode [1%Q; (-1)%Q; 1 # 2; (-1) # 3])
  = Ok [32767 # 32768; -32768 # 32768; 16384 # 32768; -10922 # 32768].
Proof.
  assert (Hs : Forall in_range [1%Q; (-1)%Q; 1 # 2; (-1) # 3])
    by (repeat constructor; vm_compute; discriminate).
  destruct (C6_codec_roundtrip _ Hs) as (_ & _ & out & -> & _ & -> & _).
  vm_compute. reflexivity.
Defined.

End CodecFacts.

(* ================================================================= *)
(** ** Running client code *)

(** Unfold the monad and the field assignments of a short run of code. *)
Ltac run :=
  repeat (progress (unfold mbind, M_bind, mret, M_ret, gets, assign, setState,
                      emit, alloc, history, throw, try_catch, getPromise,
                      putPromise, optionally, failing, exec;
                    cbn [fst snd client world app fresh trace promises
                         inputAudioContext outputAudioContext inputSource
                         processor outputGain nextStartTime sources
                         userAnalyser aiAnalyser session sessionPromise
                         set_inputAudioContext set_outputAudioContext
                         set_inputSource set_processor set_outputGain
                         set_nextStartTime set_sources set_userAnalyser
                         set_aiAnalyser set_session set_sessionPromise
                         status errorMsg uiUserAnalyser uiAiAnalyser
                         isMicMuted])).

Lemma calls_intro {A} (m : M A) (s : Sys) (cs : list Effect) :
  trace (world (exec m s)) = trace (world s) ++ cs -> calls m s = cs.
Proof. unfold calls. intros ->. apply drop_app_length. Qed.

Section SchedulerFacts.
Context `{Browser}.

(** The comparison in [scheduleAudioChunk] picks the later of the cursor
    and the clock. *)
Lemma later_is_Qmax (next now : Q) :
  (if negb (Qle_bool now next) then now else next) = Qmax next now.
Proof.
  unfold Qmax, GenericMinMax.gmax.
  destruct (Qle_bool now next) eqn:E; cbn [negb].
  - apply Qle_bool_iff in E.
    destruct (next ?= now)%Q eqn:C; try reflexivity.
    apply Qlt_alt in C. exfalso. exact (Qlt_not_le _ _ C E).
  - destruct (next ?= now)%Q eqn:C; try reflexivity.
    + apply Qeq_alt in C. exfalso.
      assert (Qle_bool now next = true); [|congruence].
      apply Qle_bool_iff. rewrite C. apply Qle_refl.
    + apply Qgt_alt in C. exfalso.
      assert (Qle_bool now next = true); [|congruence].
      apply Qle_bool_iff. now apply Qlt_le_weak.
Qed.

Lemma scheduleAudioChunk_ready now buffer ctx gain s :
  outputAudioContext (client s) = Some ctx ->
  outputGain (client s) = Some gain ->
  scheduleAudioChunk now buffer s = (Ok tt, scheduled now buffer ctx gain s).
Proof.
  destruct s as [c w a]. cbn [client]. intros Hc Hg.
  unfold scheduleAudioChunk, scheduled. run. rewrite Hc, Hg. run.
  rewrite <- (later_is_Qmax (nextStartTime c) now).
  destruct (negb (Qle_bool now (nextStartTime c))); run;
    rewrite <- !app_assoc; reflexivity.
Qed.

Lemma scheduleAudioChunk_guard now buffer s :
  outputAudioContext (client s) = None \/ outputGain (client s) = None ->
  scheduleAudioChunk now buffer s = (Ok tt, s).
Proof.
  destruct s as [c w a]. cbn [client]. unfold scheduleAudioChunk. run.
  intros [-> | ->]; [reflexivity|]. now destruct (outputAudioContext c).
Qed.

Lemma stopEach (l : list Id) c w a :
  forEach (λ source, try_catch (source_stop source) (λ _, mret tt)) l
          (mkSys c w a)
  = (Ok tt,
     mkSys c (mkWorld (fresh w) (trace w ++ map SourceStop l) (promises w)) a).
Proof.
  revert w. induction l as [|x l IH]; intros w.
  - cbn [forEach map]. run. rewrite app_nil_r. now destruct w.
  - cbn [forEach map]. unfold source_stop. run.
    destruct (stop_throws (trace w) x); run; rewrite IH; run;
      rewrite <- app_assoc; reflexivity.
Qed.

Lemma stopAllSources_spec s :
  stopAllSources s
  = (Ok tt,
     mkSys (set_sources [] (client s))
           (mkWorld (fresh (world s))
                    (trace (world s) ++ map SourceStop (sources (client s)))
                    (promises (world s)))
           (app s)).
Proof.
  destruct s as [c w a]. unfold stopAllSources. run. rewrite stopEach. now run.
Qed.

Lemma interrupt_spec s :
  interrupt s
  = (Ok tt,
     mkSys (set_nextStartTime 0 (set_sources [] (client s)))
           (mkWorld (fresh (world s))
                    (trace (world s) ++ map SourceStop (sources (client s)))
                    (promises (world s)))
           (app s)).
Proof.
  unfold interrupt. run. rewrite stopAllSources_spec. now run.
Qed.

End SchedulerFacts.

(* ================================================================= *)
(** ** Playback scheduling *)

Section Scheduling.

Lemma startOf_scheduled (source ctx gain : Id) (start : Q) :
  startOf source
    [CreateBufferSource ctx source; ConnectNode source gain;
     SourceStart source start] = Some start.
Proof. cbn. now rewrite bool_decide_eq_true_2. Qed.

Lemma calls_scheduled now buffer ctx gain s :
  outputAudioContext (client s) = Some ctx ->
  outputGain (client s) = Some gain ->
  calls (scheduleAudioChunk now buffer) s =
    [CreateBufferSource ctx (fresh (world s));
     ConnectNode (fresh (world s)) gain;
     SourceStart (fresh (world s)) (Qmax (nextStartTime (client s)) now)].
Proof.
  intros Hc Hg. apply calls_intro. unfold exec.
  now rewrite (scheduleAudioChunk_ready now buffer ctx gain s Hc Hg).
Qed.

(** C1. Every enqueued buffer is started at the later of the cursor
    [nextStartTime] and the output clock, and the cursor then moves on by
    exactly the buffer's duration; the start is never before the clock.
    Of two buffers enqueued one after the other, the second never starts
    before the first one's end, and starts exactly at that end when it is
    enqueued no later than it (as when both are enqueued at once, with no
    prior activity): playback is back to back, in enqueue order. *)
Theorem C1_gapless_scheduling (nowA nowB : Q) (a b : AudioBuffer) (s : Sys) :
  playbackReady (client s) ->
  let sA := exec (scheduleAudioChunk nowA a) s in
  let sB := exec (scheduleAudioChunk nowB b) sA in
  let srcA := fresh (world s) in
  let srcB := fresh (world sA) in
  let startA := Qmax (nextStartTime (client s)) nowA in
  let startB := Qmax (nextStartTime (client sA)) nowB in
  (returns (scheduleAudioChunk nowA a) s /\
   returns (scheduleAudioChunk nowB b) sA) /\
  (startOf srcA (calls (scheduleAudioChunk nowA a) s) = Some startA /\
   startOf srcB (calls (scheduleAudioChunk nowB b) sA) = Some startB) /\
  (nextStartTime (client sA) = (startA + duration a)%Q /\
   nextStartTime (client sB) = (startB + duration b)%Q) /\
  ((nowA <= startA)%Q /\ (nowB <= startB)%Q) /\
  (startA + duration a <= startB)%Q /\
  ((nowB <= startA + duration a)%Q -> startB = (startA + duration a)%Q) /\
  (nextStartTime (client s) = 0%Q -> (0 <= nowA)%Q -> (startA == nowA)%Q) /\
  sources (client sB) = set_add srcB (set_add srcA (sources (client s))).
Proof.
  intros [[ctx Hc] [gain Hg]]. cbv zeta.
  pose proof (scheduleAudioChunk_ready nowA a ctx gain s Hc Hg) as EA.
  pose proof (calls_scheduled nowA a ctx gain s Hc Hg) as CA.
  unfold exec in *. rewrite EA in *. cbn [snd fst] in *.
  set (sA := scheduled nowA a ctx gain s) in *.
  assert (HcA : outputAudioContext (client sA) = Some ctx) by exact Hc.
  assert (HgA : outputGain (client sA) = Some gain) by exact Hg.
  pose proof (scheduleAudioChunk_ready nowB b ctx gain sA HcA HgA) as EB.
  pose proof (calls_scheduled nowB b ctx gain sA HcA HgA) as CB.
  unfold exec in *. rewrite EB in *. cbn [snd fst] in *.
  assert (HnA : nextStartTime (client sA)
                = (Qmax (nextStartTime (client s)) nowA + duration a)%Q)
    by reflexivity.
  repeat split.
  - unfold returns. rewrite EA. now exists tt.
  - unfold returns. rewrite EB. now exists tt.
  - rewrite CA. apply startOf_scheduled.
  - rewrite CB. apply startOf_scheduled.
  - apply Q.le_max_r.
  - apply Q.le_max_r.
  - rewrite <- HnA. apply Q.le_max_l.
  - intros Hle. rewrite <- HnA in *.
    unfold Qmax, GenericMinMax.gmax.
    destruct (nextStartTime (client sA) ?= nowB)%Q eqn:C; try reflexivity.
    apply Qlt_alt in C. exfalso. exact (Qlt_not_le _ _ C Hle).
  - intros -> Hpos. now apply Q.max_r.
Qed.

Lemma C1_gapless_scheduling_witness :
  startOf 11%nat
    (calls (scheduleAudioChunk 0 chunkB)
           (exec (scheduleAudioChunk 0 chunkA) connectedSys))
  = Some (0 + duration chunkA)%Q.
Proof.
  pose proof (C1_gapless_scheduling 0 0 chunkA chunkB connectedSys
                ltac:(split; eexists; vm_compute; reflexivity)) as W.
  cbv zeta in W.
  destruct W as (_ & (_ & HB) & _ & _ & _ & Hex & _).
  rewrite (Hex ltac:(vm_compute; discriminate)) in HB.
  exact HB.
Defined.

End Scheduling.

(* ================================================================= *)
(** ** Interruption *)

Section Interruption.
Context `{Browser}.

Lemma onended_each (l : list Id) c w a :
  forEach onended l (mkSys c w a)
  = (Ok tt,
     mkSys (set_sources (foldl (λ acc x, set_delete x acc) (sources c) l) c)
           w a).
Proof.
  revert c. induction l as [|x l IH]; intros c.
  - cbn [forEach foldl]. run. now destruct c.
  - cbn [forEach foldl]. unfold onended. run. rewrite IH. now run.
Qed.

Lemma delete_all_elem (l acc : list Id) (y : Id) :
  y ∈ foldl (λ acc x, set_delete x acc) acc l <-> y ∈ acc /\ y ∉ l.
Proof.
  revert acc. induction l as [|x l IH]; intros acc; cbn [foldl].
  - split; [intros Hy; split; [exact Hy|apply not_elem_of_nil]|now intros [? _]].
  - rewrite IH. unfold set_delete. rewrite list_elem_of_filter, not_elem_of_cons.
    tauto.
Qed.

(** Once every live source has ended, the live-set is empty. *)
Lemma all_ended (s : Sys) :
  sources (client (exec (forEach onended (sources (client s))) s)) = [].
Proof.
  destruct s as [c w a]. unfold exec. rewrite onended_each. cbn.
  apply elem_of_nil_inv. intros y Hy. apply delete_all_elem in Hy. tauto.
Qed.

Lemma calls_interrupt (s : Sys) :
  calls interrupt s = map SourceStop (sources (client s)).
Proof.
  apply calls_intro. unfold exec. now rewrite interrupt_spec.
Qed.

(** C2. The interruption branch stops every source of the live-set
    (swallowing what [stop] may raise on one that already finished), clears
    the live-set and resets the cursor to zero, without error.  Run a
    second time, or once all sources have ended on their own, it stops
    nothing, raises nothing and leaves the live-set empty.  The next
    buffer enqueued after it starts at the current output-clock time. *)
Theorem C2_interrupt_idempotent (now : Q) (buffer : AudioBuffer) (s : Sys) :
  let s1 := exec interrupt s in
  let s2 := exec interrupt s1 in
  let ended := exec (forEach onended (sources (client s))) s in
  (returns interrupt s /\
   calls interrupt s = map SourceStop (sources (client s)) /\
   sources (client s1) = [] /\ nextStartTime (client s1) = 0%Q) /\
  (returns interrupt s1 /\ calls interrupt s1 = [] /\
   sources (client s2) = [] /\ client s2 = client s1) /\
  (sources (client ended) = [] /\ returns interrupt ended /\
   calls interrupt ended = [] /\ sources (client (exec interrupt ended)) = []) /\
  (playbackReady (client s) -> (0 <= now)%Q ->
   exists start,
     startOf (fresh (world s1)) (calls (scheduleAudioChunk now buffer) s1)
       = Some start /\
     (start == now)%Q /\
     sources (client (exec (scheduleAudioChunk now buffer) s1))
       = [fresh (world s1)]).
Proof.
  cbv zeta.
  assert (R : forall t, returns interrupt t)
    by (intros t; unfold returns; rewrite interrupt_spec; now exists tt).
  assert (E : forall t, exec interrupt t
     = mkSys (set_nextStartTime 0 (set_sources [] (client t)))
           (mkWorld (fresh (world t))
                    (trace (world t) ++ map SourceStop (sources (client t)))
                    (promises (world t)))
           (app t))
    by (intros t; unfold exec; now rewrite interrupt_spec).
  split; [|split; [|split]].
  - split; [apply R|]. split; [apply calls_interrupt|]. now rewrite E.
  - split; [apply R|]. split; [rewrite calls_interrupt; now rewrite E|].
    now rewrite !E.
  - split; [apply all_ended|]. split; [apply R|].
    split; [rewrite calls_interrupt, all_ended; reflexivity|]. now rewrite E.
  - intros [[ctx Hc] [gain Hg]] Hnow. exists (Qmax 0 now).
    assert (Hc1 : outputAudioContext (client (exec interrupt s)) = Some ctx)
      by (rewrite E; exact Hc).
    assert (Hg1 : outputGain (client (exec interrupt s)) = Some gain)
      by (rewrite E; exact Hg).
    rewrite (calls_scheduled now buffer ctx gain _ Hc1 Hg1).
    split; [|split].
    + rewrite startOf_scheduled. now rewrite E.
    + now apply Q.max_r.
    + unfold exec at 1.
      rewrite (scheduleAudioChunk_ready now buffer ctx gain _ Hc1 Hg1).
      rewrite E. reflexivity.
Qed.

End Interruption.

Lemma C2_interrupt_idempotent_witness :
  calls (interrupt (H := strictBrowser))
        (exec (scheduleAudioChunk 0 chunkB)
              (exec (scheduleAudioChunk 0 chunkA) connectedSys))
  = [SourceStop 10%nat; SourceStop 11%nat].
Proof.
  pose proof (C2_interrupt_idempotent (H := strictBrowser) (1 # 4) chunkA
                (exec (scheduleAudioChunk 0 chunkB)
                      (exec (scheduleAudioChunk 0 chunkA) connectedSys)))
    as W.
  cbv zeta in W. destruct W as ((_ & HC & _) & _ & _ & HN).
  destruct (HN ltac:(split; eexists; vm_compute; reflexivity)
               ltac:(vm_compute; discriminate)) as (start & _ & _ & _).
  rewrite HC. vm_compute. reflexivity.
Defined.

(* ================================================================= *)
(** ** Inbound messages *)

Section Inbound.
Context `{Browser}.

Lemma afterInterruption_trace m s :
  trace (world (afterInterruption m s)) = trace (world s) ++ stopsOf m s.
Proof.
  unfold afterInterruption, stopsOf, exec.
  destruct (signalsInterruption m).
  - now rewrite interrupt_spec.
  - now rewrite app_nil_r.
Qed.

Lemma afterInterruption_ready m s :
  outputAudioContext (client (afterInterruption m s))
    = outputAudioContext (client s) /\
  outputGain (client (afterInterruption m s)) = outputGain (client s).
Proof.
  unfold afterInterruption, exec.
  destruct (signalsInterruption m); [rewrite interrupt_spec|]; now split.
Qed.

(** [onmessage], branch by branch. *)
Lemma onmessage_spec now m s :
  onmessage now m s =
    let pre := afterInterruption m s in
    match audioPayload m, outputAudioContext (client pre),
          outputGain (client pre) with
    | Some b64, Some ctx, Some gain =>
        match decodePayload b64 with
        | Ok buf => (Ok tt, scheduled now buf ctx gain pre)
        | Throw e => (Ok tt, exec (consoleError "Error decoding audio") pre)
        end
    | _, _, _ => (Ok tt, pre)
    end.
Proof.
  cbv zeta. unfold onmessage, afterInterruption.
  unfold mbind at 1. unfold M_bind at 1.
  assert (E : (if signalsInterruption m then interrupt else mret tt) s
              = (Ok tt, if signalsInterruption m then exec interrupt s else s)).
  { destruct (signalsInterruption m); [|reflexivity].
    unfold exec. now rewrite interrupt_spec. }
  rewrite E. clear E.
  set (pre := if signalsInterruption m then exec interrupt s else s).
  run.
  destruct (audioPayload m) as [b64|]; [|reflexivity].
  destruct (outputAudioContext (client pre)) as [ctx|] eqn:Hc; [|reflexivity].
  destruct (outputGain (client pre)) as [gain|] eqn:Hg; [|reflexivity].
  unfold decodePayload, liftR, decodeAudioData, consoleError.
  destruct (base64ToBytes b64) as [bytes|e]; run; [|reflexivity].
  destruct (Codec.decode bytes) as [smp|e]; run; [|reflexivity].
  now rewrite (scheduleAudioChunk_ready now _ ctx gain pre Hc Hg).
Qed.

Lemma onmessage_returns now m s : returns (onmessage now m) s.
Proof.
  unfold returns. rewrite onmessage_spec. cbv zeta.
  repeat match goal with |- context [match ?x with _ => _ end] => destruct x end;
    now exists tt.
Qed.

(** An audio payload that decodes, on a client whose playback path is up. *)
Lemma onmessage_audio now m s b64 buf :
  playbackReady (client s) ->
  audioPayload m = Some b64 -> decodePayload b64 = Ok buf ->
  let pre := afterInterruption m s in
  let source := fresh (world s) in
  exec (onmessage now m) s = exec (scheduleAudioChunk now buf) pre /\
  (exists ctx gain,
     calls (onmessage now m) s =
       stopsOf m s ++
       [CreateBufferSource ctx source; ConnectNode source gain;
        SourceStart source (Qmax (nextStartTime (client pre)) now)]) /\
  source ∈ sources (client (exec (onmessage now m) s)) /\
  (signalsInterruption m = true ->
   nextStartTime (client pre) = 0%Q /\
   sources (client (exec (onmessage now m) s)) = [source]).
Proof.
  intros [[ctx Hc] [gain Hg]] Ha Hd. cbv zeta.
  destruct (afterInterruption_ready m s) as [Hc' Hg'].
  rewrite <- Hc' in Hc. rewrite <- Hg' in Hg.
  assert (Hf : fresh (world (afterInterruption m s)) = fresh (world s)).
  { unfold afterInterruption, exec. destruct (signalsInterruption m);
      [now rewrite interrupt_spec|reflexivity]. }
  assert (E : exec (onmessage now m) s
              = scheduled now buf ctx gain (afterInterruption m s)).
  { unfold exec. rewrite onmessage_spec. cbv zeta.
    now rewrite Ha, Hc, Hg, Hd. }
  split; [|split; [|split]].
  - rewrite E. unfold exec.
    now rewrite (scheduleAudioChunk_ready now buf ctx gain _ Hc Hg).
  - exists ctx, gain. apply calls_intro. rewrite E.
    unfold scheduled. cbn [world trace].
    rewrite afterInterruption_trace, Hf. now rewrite <- app_assoc.
  - rewrite E. unfold scheduled. cbn [client sources set_sources].
    rewrite Hf. unfold set_add. case_bool_decide; [assumption|].
    apply elem_of_app. right. apply list_elem_of_singleton. reflexivity.
  - intros Hi. rewrite E. unfold afterInterruption in *. rewrite Hi in *.
    unfold exec in *. rewrite interrupt_spec in *. split; reflexivity.
Qed.

(** A payload that does not decode: logged, nothing else. *)
Lemma onmessage_undecodable now m s b64 e :
  playbackReady (client s) ->
  audioPayload m = Some b64 -> decodePayload b64 = Throw e ->
  onmessage now m s
  = (Ok tt, exec (consoleError "Error decoding audio") (afterInterruption m s)).
Proof.
  intros [[ctx Hc] [gain Hg]] Ha Hd.
  destruct (afterInterruption_ready m s) as [Hc' Hg'].
  rewrite <- Hc' in Hc. rewrite <- Hg' in Hg.
  rewrite onmessage_spec. cbv zeta. now rewrite Ha, Hc, Hg, Hd.
Qed.

(** C3. An interruption signal is acted on first: the live sources are
    stopped and the cursor reset before the audio payload of the same
    message is decoded and enqueued (so the new chunk starts at the clock
    and is the one live source).  An audio payload is decoded and
    enqueued.  A message with neither leaves the state as it was and is no
    error. *)
Theorem C3_message_routing (now : Q) (m : LiveServerMessage) (s : Sys)
    (b64 : string) (buf : AudioBuffer) :
  returns (onmessage now m) s /\
  (signalsInterruption m = false -> audioPayload m = None ->
   onmessage now m s = (Ok tt, s)) /\
  (audioPayload m = None -> onmessage now m s = (Ok tt, afterInterruption m s)) /\
  (playbackReady (client s) ->
   audioPayload m = Some b64 -> decodePayload b64 = Ok buf ->
   let pre := afterInterruption m s in
   let source := fresh (world s) in
   exec (onmessage now m) s = exec (scheduleAudioChunk now buf) pre /\
   (exists ctx gain,
      calls (onmessage now m) s =
        stopsOf m s ++
        [CreateBufferSource ctx source; ConnectNode source gain;
         SourceStart source (Qmax (nextStartTime (client pre)) now)]) /\
   source ∈ sources (client (exec (onmessage now m) s)) /\
   (signalsInterruption m = true ->
    nextStartTime (client pre) = 0%Q /\
    sources (client (exec (onmessage now m) s)) = [source])).
Proof.
  split; [apply onmessage_returns|].
  split; [|split].
  - intros Hi Ha. rewrite onmessage_spec. cbv zeta. rewrite Ha.
    unfold afterInterruption. now rewrite Hi.
  - intros Ha. rewrite onmessage_spec. cbv zeta. now rewrite Ha.
  - apply onmessage_audio.
Qed.

(** A payload whose bytes are odd in number fails to decode, with
    MalformedAudioError. *)
Lemma odd_payload_malformed (b64 : string) (pcmData : list Z) :
  base64ToBytes b64 = Ok pcmData -> Nat.odd (length pcmData) = true ->
  decodePayload b64 = Throw MalformedAudioError.
Proof.
  intros Hb Hodd. unfold decodePayload. rewrite Hb.
  now rewrite (proj1 (CodecFacts.decode_parity pcmData) Hodd).
Qed.

(** C7. A payload that fails to decode (its transport string or its
    bytes, as bytes of odd length do with MalformedAudioError) is logged
    and dropped: the handler ends normally, no source is created, the
    client is as the interruption branch left it and the session is kept.
    A later message with a sound payload is enqueued as usual. *)
Theorem C7_decode_failure_contained (now now' : Q)
    (m m' : LiveServerMessage) (s : Sys) (b64 b64' : string) (e : Thrown)
    (buf' : AudioBuffer) :
  playbackReady (client s) ->
  audioPayload m = Some b64 -> decodePayload b64 = Throw e ->
  let pre := afterInterruption m s in
  let s1 := exec (onmessage now m) s in
  (fst (onmessage now m s) = Ok tt /\
   calls (onmessage now m) s
     = stopsOf m s ++ [ConsoleError "Error decoding audio"] /\
   client s1 = client pre /\ fresh (world s1) = fresh (world pre) /\
   session (client s1) = session (client s) /\
   sessionPromise (client s1) = sessionPromise (client s) /\
   playbackReady (client s1)) /\
  (audioPayload m' = Some b64' -> decodePayload b64' = Ok buf' ->
   returns (onmessage now' m') s1 /\
   exec (onmessage now' m') s1
     = exec (scheduleAudioChunk now' buf') (afterInterruption m' s1) /\
   fresh (world s1) ∈ sources (client (exec (onmessage now' m') s1))) /\
  (forall pcmData, base64ToBytes b64 = Ok pcmData ->
                   Nat.odd (length pcmData) = true ->
                   e = MalformedAudioError).
Proof.
  intros Hr Ha Hd. cbv zeta.
  pose proof (onmessage_undecodable now m s b64 e Hr Ha Hd) as E.
  assert (Es : exec (onmessage now m) s
               = exec (consoleError "Error decoding audio")
                      (afterInterruption m s))
    by (unfold exec at 1; now rewrite E).
  assert (Hcl : client (exec (onmessage now m) s)
                = client (afterInterruption m s)) by (now rewrite Es).
  assert (Hpre : session (client (afterInterruption m s)) = session (client s)
                 /\ sessionPromise (client (afterInterruption m s))
                    = sessionPromise (client s)).
  { unfold afterInterruption, exec. destruct (signalsInterruption m);
      [rewrite interrupt_spec|]; now split. }
  assert (Hr1 : playbackReady (client (exec (onmessage now m) s))).
  { unfold playbackReady in *. rewrite Hcl.
    destruct (afterInterruption_ready m s) as [-> ->]. exact Hr. }
  split; [|split].
  - split; [now rewrite E|]. split.
    { apply calls_intro. rewrite Es. unfold consoleError. run.
      now rewrite afterInterruption_trace, <- app_assoc. }
    split; [exact Hcl|]. split; [now rewrite Es|].
    split; [rewrite Hcl; apply Hpre|]. split; [rewrite Hcl; apply Hpre|].
    exact Hr1.
  - intros Ha' Hd'. split; [apply onmessage_returns|].
    destruct (onmessage_audio now' m' _ b64' buf' Hr1 Ha' Hd')
      as (Hex & _ & Hin & _).
    now split.
  - intros pcmData Hb Hodd. unfold decodePayload in Hd. rewrite Hb in Hd.
    rewrite (proj1 (CodecFacts.decode_parity pcmData) Hodd) in Hd.
    congruence.
Qed.

(** With the output context or the gain null, nothing is scheduled. *)
Lemma audio_ignored_when_down (now : Q)
    (m : LiveServerMessage) (buffer : AudioBuffer) (s : Sys) :
  outputAudioContext (client s) = None \/ outputGain (client s) = None ->
  scheduleAudioChunk now buffer s = (Ok tt, s) /\
  returns (onmessage now m) s /\
  onmessage now m s = (Ok tt, afterInterruption m s) /\
  (signalsInterruption m = false -> onmessage now m s = (Ok tt, s)) /\
  filter isPlayback (calls (onmessage now m) s) = [] /\
  sources (client (exec (onmessage now m) s)) ⊆ sources (client s).
Proof.
  intros Hnull.
  assert (E : onmessage now m s = (Ok tt, afterInterruption m s)).
  { rewrite onmessage_spec. cbv zeta.
    destruct (afterInterruption_ready m s) as [-> ->].
    destruct (audioPayload m); [|reflexivity].
    destruct Hnull as [-> | ->]; [reflexivity|].
    now destruct (outputAudioContext (client s)). }
  split; [now apply scheduleAudioChunk_guard|].
  split; [apply onmessage_returns|]. split; [exact E|].
  split; [|split].
  - intros Hi. rewrite E. unfold afterInterruption. now rewrite Hi.
  - rewrite (calls_intro (onmessage now m) s (stopsOf m s)).
    + unfold stopsOf. destruct (signalsInterruption m); [|reflexivity].
      induction (sources (client s)); [reflexivity|assumption].
    + unfold exec. rewrite E. apply afterInterruption_trace.
  - unfold exec. rewrite E. unfold afterInterruption, exec.
    destruct (signalsInterruption m); [|reflexivity].
    rewrite interrupt_spec. cbn. apply list_subseteq_nil.
Qed.

End Inbound.

(* ================================================================= *)
(** ** Teardown *)

(** As [run], but the calls stay folded, so that the lemmas on optional
    calls apply. *)
Ltac run' :=
  repeat (progress (unfold mbind, M_bind, mret, M_ret, gets, assign, logged;
                    cbn [fst snd client world app fresh trace promises
                         inputAudioContext outputAudioContext inputSource
                         processor outputGain nextStartTime sources
                         userAnalyser aiAnalyser session sessionPromise
                         set_inputAudioContext set_outputAudioContext
                         set_inputSource set_processor set_outputGain
                         set_nextStartTime set_sources set_userAnalyser
                         set_aiAnalyser set_session set_sessionPromise])).

Section Teardown.
Context `{Browser}.

Lemma optionally_emit (h : option Id) (f : Id -> Effect) (s : Sys) :
  optionally h (λ n, emit (f n)) s = (Ok tt, logged (callOn h f) s).
Proof.
  destruct s as [c [fr tr pr] a].
  destruct h; unfold optionally, callOn; run; [reflexivity|].
  unfold logged. cbn. now rewrite app_nil_r.
Qed.

Lemma optionally_close (sess : option Id) (s : Sys) :
  optionally sess (λ sess,
    try_catch (session_close sess)
              (λ e, consoleWarn "Error closing session")) s
  = (Ok tt, logged (closeCalls (trace (world s)) sess) s).
Proof.
  destruct s as [c [fr tr pr] a].
  destruct sess as [x|]; unfold logged, closeCalls, session_close,
    consoleWarn; run.
  - destruct (has_close x); run; [|now rewrite app_nil_r].
    destruct (close_throws tr x); run; [|reflexivity].
    now rewrite <- app_assoc.
  - now rewrite app_nil_r.
Qed.

(** [disconnect] in closed form: it always returns, nulls the session
    handle, the promise, both contexts, the processor and the input source,
    empties the live-set, and keeps the gain, the analysers and the
    cursor. *)
Lemma disconnect_spec (s : Sys) :
  disconnect s
  = (Ok tt,
     mkSys (tornDown (client s))
           (mkWorld (fresh (world s)) (trace (world s) ++ disconnectCalls s)
                    (promises (world s)))
           (app s)).
Proof.
  destruct s as [c [fr tr pr] a]. unfold disconnect.
  unfold mbind at 1. unfold M_bind at 1. rewrite stopAllSources_spec. run'.
  rewrite optionally_close. run'.
  repeat (rewrite optionally_emit; run').
  unfold tornDown, disconnectCalls. cbn [client world trace].
  rewrite <- !app_assoc. reflexivity.
Qed.

(** Membership in a list of calls, piece by piece. *)
Ltac split_in Hin :=
  repeat match goal with
         | Hin : _ \/ _ |- _ => destruct Hin as [Hin|Hin]
         | Hin : _ ∈ _ ++ _ |- _ => apply elem_of_app in Hin as [Hin|Hin]
         | Hin : _ ∈ _ :: _ |- _ => apply elem_of_cons in Hin as [Hin|Hin]
         | Hin : _ ∈ [] |- _ => apply elem_of_nil in Hin; contradiction
         | Hin : _ ∈ map _ _ |- _ =>
             apply list_elem_of_fmap in Hin as (? & Hin & _)
         | Hin : _ ∈ callOn ?h _ |- _ => destruct h; cbn [callOn] in Hin
         | Hin : _ ∈ closeCalls _ ?h |- _ =>
             destruct h; cbn [closeCalls] in Hin
         | Hin : _ ∈ (if ?b then _ else _) |- _ => destruct b
         | Hin : _ ∈ match ?b with Some _ => _ | None => _ end |- _ =>
             destruct b
         | Hin : _ = _ |- _ => discriminate Hin
         | Hin : _ = _ |- _ => injection Hin as ->
         end.

(** [disconnect] only stops, closes and disconnects, and may warn. *)
Lemma disconnectCalls_kind (s : Sys) (e : Effect) :
  e ∈ disconnectCalls s ->
  isTeardown e = true \/ e = ConsoleWarn "Error closing session".
Proof.
  unfold disconnectCalls. cbv zeta. intros Hin.
  split_in Hin; subst; cbn; tauto.
Qed.

End Teardown.

(* ================================================================= *)
(** ** Connecting *)

(** Symbolic execution of a long run of client code, by value. *)
Ltac crun :=
  cbv beta iota zeta delta
    [mbind M_bind mret M_ret gets assign setState emit alloc history throw
     try_catch getPromise putPromise optionally failing exec
     fst snd client world app fresh trace promises
     inputAudioContext outputAudioContext inputSource
     processor outputGain nextStartTime sources
     userAnalyser aiAnalyser session sessionPromise
     set_inputAudioContext set_outputAudioContext
     set_inputSource set_processor set_outputGain
     set_nextStartTime set_sources set_userAnalyser
     set_aiAnalyser set_session set_sessionPromise
     status errorMsg uiUserAnalyser uiAiAnalyser isMicMuted
     newInputContext newOutputContext getUserMedia liveConnect
     pstate reactions].

(** Membership in the calls of a failed [connect]: in the (explicit)
    calls of the attempt, or among those of [disconnect]. *)
Ltac in_attempt Hin :=
  repeat match goal with
         | Hin : _ \/ _ |- _ => destruct Hin as [Hin|Hin]
         | Hin : _ ∈ disconnectCalls _ |- _ =>
             apply disconnectCalls_kind in Hin; cbn in Hin
         | Hin : _ ∈ _ ++ _ |- _ => apply elem_of_app in Hin as [Hin|Hin]
         | Hin : _ ∈ _ :: _ |- _ => apply elem_of_cons in Hin as [Hin|Hin]
         | Hin : _ ∈ [] |- _ => apply elem_of_nil in Hin; contradiction
         | Hin : _ = _ |- _ => discriminate Hin
         | Hin : _ = _ |- _ => injection Hin as ->
         end.

(** A call that [disconnect] makes on a handle the client holds. *)
Ltac in_teardown :=
  repeat match goal with
         | |- _ ∈ [_] ++ _ => apply elem_of_app; right
         end;
  unfold disconnectCalls;
  cbn [client world trace sources session processor inputSource
       userAnalyser aiAnalyser outputGain inputAudioContext
       outputAudioContext callOn];
  rewrite !elem_of_app, ?elem_of_cons; tauto.

Section Connecting.
Context `{Browser}.

(** C4 (the code departs from it). When a step of [connect] fails
    (creating a context, acquiring the microphone, opening the session),
    the [catch] block runs [disconnect] and then the error callback, once,
    with the error: the client is idle, and among the calls [connect] made
    every context it created is closed and every node it created is
    disconnected.  But when the failure comes after [getUserMedia]
    succeeded, the media stream it returned is left as it is: the only
    calls that name it are its acquisition and its wiring to the source
    node; [disconnect] makes none on it, and the client keeps no handle on
    it. *)
Theorem C4_failed_connect_keeps_stream (o : Outcome) (config : LiveConfig)
    (s : Sys) (e : Thrown) :
  firstFailure o = Some e ->
  let quiet := connect o config (mret tt) (λ _, mret tt) in
  let s1 := exec quiet s in
  let cs := calls quiet s in
  (forall onDisconnect onError,
     connect o config onDisconnect onError s
     = onError (if isError e then e else mkThrown true "Failed to connect")
               s1) /\
  Idle (client s1) /\ app s1 = app s /\
  graphReleased cs /\
  (newInputContext o = None -> newOutputContext o = None ->
   getUserMedia o = None ->
   exists ictx st src,
     GetUserMedia st ∈ cs /\
     (forall c, c ∈ cs -> onStream st c = true ->
        c = GetUserMedia st \/ c = CreateMediaStreamSource ictx st src)).
Proof.
  cbv zeta. unfold calls, exec.
  destruct s as [[f1 f2 f3 f4 f5 f6 f7 f8 f9 f10 f11] [fr tr pr] a].
  destruct o as [[ei|] [eo|] [eg|] [el|]];
    cbn [firstFailure newInputContext newOutputContext getUserMedia
         liveConnect]; intros [= <-];
    unfold connect, connect_open, connect_established, connect_catch,
      newAudioContext, settle, await, consoleError; crun;
    rewrite ?lookup_insert_eq; crun; rewrite ?lookup_insert_eq; crun;
    rewrite !disconnect_spec; crun.
  all: split; [reflexivity|].
  all: split; [now repeat split|]. all: split; [reflexivity|].
  all: rewrite <- ?app_assoc; rewrite drop_app_length.
  all: split; [|try (intros; discriminate)].
  all: try (unfold graphReleased; repeat split; intros;
            match goal with Hin : _ ∈ _ |- _ => in_attempt Hin end; subst;
            in_teardown).
  intros _ _ _. do 3 eexists. split.
  - rewrite !elem_of_app, !elem_of_cons. do 7 right. left. left. reflexivity.
  - intros c Hin Hc. in_attempt Hin; subst; cbn in Hc;
      try discriminate Hc; try (left; reflexivity); try (right; reflexivity);
      destruct c; discriminate.
Qed.

End Connecting.

Lemma C4_failed_connect_keeps_stream_witness :
  let failed :=
    connect (H := strictBrowser)
      (mkOutcome None None None (Some (mkThrown true "service unavailable")))
      sampleConfig (mret tt) (λ _, mret tt) in
  Idle (client (exec failed initial)) /\
  calls failed initial
  = [NewAudioContext 0%nat 16000; NewAudioContext 1%nat 24000;
     CreateAnalyser 0%nat 2%nat; CreateAnalyser 1%nat 3%nat;
     CreateGain 1%nat 4%nat; ConnectNode 4%nat 3%nat;
     ConnectDestination 3%nat 1%nat; GetUserMedia 5%nat;
     CreateMediaStreamSource 0%nat 5%nat 6%nat; ConnectNode 6%nat 2%nat;
     CreateScriptProcessor 0%nat 7%nat 4096; ConnectNode 2%nat 7%nat;
     ConnectDestination 7%nat 0%nat; LiveConnect 8%nat sampleConfig;
     ConsoleError "Connection failed";
     DisconnectNode 7%nat; DisconnectNode 6%nat; DisconnectNode 2%nat;
     DisconnectNode 3%nat; DisconnectNode 4%nat;
     CloseContext 0%nat; CloseContext 1%nat].
Proof.
  cbv zeta. split.
  - exact (proj1 (proj2 (C4_failed_connect_keeps_stream (H := strictBrowser)
                           (mkOutcome None None None
                              (Some (mkThrown true "service unavailable")))
                           sampleConfig initial
                           (mkThrown true "service unavailable") eq_refl))).
  - vm_compute. reflexivity.
Defined.

(* ================================================================= *)
(** ** Session lifecycle *)

Section Lifecycle.
Context `{Browser}.

(** [disconnect] on a client that was never connected does nothing. *)
Lemma disconnect_idle_noop : disconnect initial = (Ok tt, initial).
Proof. rewrite disconnect_spec. reflexivity. Qed.

Lemma disconnect_returns (s : Sys) : returns disconnect s.
Proof. unfold returns. rewrite disconnect_spec. now exists tt. Qed.

(** A second [disconnect] leaves the client as the first one did. *)
Lemma disconnect_idempotent (s : Sys) :
  client (exec disconnect (exec disconnect s)) = client (exec disconnect s).
Proof. unfold exec. now rewrite !disconnect_spec. Qed.

(** [disconnect] leaves the client idle, with both contexts closed. *)
Lemma disconnect_releases (s : Sys) (ictx octx : Id) :
  inputAudioContext (client s) = Some ictx ->
  outputAudioContext (client s) = Some octx ->
  Idle (client (exec disconnect s)) /\
  CloseContext ictx ∈ calls disconnect s /\
  CloseContext octx ∈ calls disconnect s.
Proof.
  intros Hi Ho.
  rewrite (calls_intro disconnect s (disconnectCalls s))
    by (unfold exec; now rewrite disconnect_spec).
  unfold exec. rewrite disconnect_spec. split; [now repeat split|].
  unfold disconnectCalls. cbv zeta. rewrite Hi, Ho. cbn [callOn].
  rewrite !elem_of_app, !elem_of_cons. tauto.
Qed.

(** [disconnect] does not touch the scheduling cursor. *)
Lemma disconnect_keeps_cursor (s : Sys) :
  nextStartTime (client (exec disconnect s)) = nextStartTime (client s).
Proof. unfold exec. now rewrite disconnect_spec. Qed.

End Lifecycle.

(** [handleConnect] sets the status to [connected] once [connect] has
    returned, also when [connect] failed and called [onError]: the error
    message is shown, the status says connected, the client is idle. *)
Lemma handleConnect_after_failure :
  let s := exec (handleConnect (H := quietBrowser)
                   (mkOutcome None None None
                              (Some (mkThrown true "service unavailable")))
                   sampleConfig) initial in
  status (app s) = connected /\
  errorMsg (app s) = Some "service unavailable" /\
  Idle (client s).
Proof. vm_compute. now repeat split. Qed.

(** C5 (the code departs from it). [disconnect] never resets
    [nextStartTime], and [connect] does not either: after a session that
    played one second of audio, a disconnect and a new connect, the client
    is active again with the cursor still at one second, and the first
    chunk of the new session, enqueued at clock zero of its new output
    context, is started at one second instead of at once. *)
Theorem C5_stale_cursor_after_reconnect :
  let s1 := exec (scheduleAudioChunk 0 chunkA) connectedSys in
  let s2 := exec (handleDisconnect (H := quietBrowser)) s1 in
  let s3 := exec (handleConnect (H := quietBrowser) allGood sampleConfig) s2 in
  (forall s : Sys,
     nextStartTime (client (exec (disconnect (H := quietBrowser)) s))
     = nextStartTime (client s)) /\
  Idle (client s2) /\ status (app s2) = disconnected /\
  Active (client s3) /\ status (app s3) = connected /\
  nextStartTime (client s3) = (0 + duration chunkA)%Q /\
  startOf (fresh (world s3)) (calls (scheduleAudioChunk 0 chunkB) s3)
    = Some (0 + duration chunkA)%Q /\
  ~ (0 + duration chunkA == 0)%Q.
Proof.
  cbv zeta. split; [apply disconnect_keeps_cursor|].
  split; [vm_compute; now repeat split|].
  split; [vm_compute; reflexivity|].
  split; [vm_compute; repeat split; eexists; reflexivity|].
  split; [vm_compute; reflexivity|].
  split; [vm_compute; reflexivity|].
  split; [vm_compute; reflexivity|].
  vm_compute. discriminate.
Qed.

(** C9 (the code departs from it). The [onclose] and [onerror] callbacks
    only log and call the caller's callback: the caller's status becomes
    [disconnected], respectively [error], but the client is exactly as it
    was.  After [onclose] on an established session the client still holds
    the session handle, both contexts, the processor and the input source,
    nothing was closed or disconnected, and the next capture block is
    still queued for sending. *)
Theorem C9_stream_end_keeps_resources (s : Sys) (err : Thrown) :
  let sc := exec (onclose app_onDisconnect) s in
  let se := exec (onerror app_onError err) s in
  (client sc = client s /\ status (app sc) = disconnected /\
   calls (onclose app_onDisconnect) s
     = [ConsoleLog "Gemini Live Connection Closed"]) /\
  (client se = client s /\ status (app se) = error /\
   exists msg,
     calls (onerror app_onError err) s
       = [ConsoleError "Gemini Live Error"; ConsoleError msg]) /\
  (Active (client connectedSys) /\
   Active (client (exec (onclose app_onDisconnect) connectedSys)) /\
   status (app (exec (onclose app_onDisconnect) connectedSys)) = disconnected /\
   promises (world (exec (onaudioprocess [0%Q])
                         (exec (onclose app_onDisconnect) connectedSys)))
     !! 8%nat
   = Some (mkPromise (Fulfilled 9%nat) [createPcmBlob [0%Q]])).
Proof.
  cbv zeta. destruct s as [c [fr tr pr] a]. split; [|split].
  - split; [reflexivity|]. split; [reflexivity|].
    apply calls_intro. unfold onclose, consoleLog, app_onDisconnect. now run.
  - split; [reflexivity|]. split; [reflexivity|].
    eexists. apply calls_intro.
    unfold onerror, app_onError, consoleError. run. cbn [message].
    rewrite <- app_assoc. reflexivity.
  - split; [vm_compute; repeat split; eexists; reflexivity|].
    split; [vm_compute; repeat split; eexists; reflexivity|].
    split; vm_compute; reflexivity.
Qed.

(* ================================================================= *)
(** ** Capture *)

Section Capture.
Context `{Browser}.

Lemma onaudioprocess_spec (data : list Q) (s : Sys) :
  onaudioprocess data s
  = (Ok tt,
     match sessionPromise (client s) with
     | Some p => waitingOn p (createPcmBlob data) s
     | None => s
     end).
Proof.
  destruct s as [c [fr tr pr] a]. unfold onaudioprocess, thenSend, waitingOn.
  run. destruct (sessionPromise c) as [p|]; [|reflexivity]. run.
  now destruct (pr !! p).
Qed.

Lemma waitingOn_trace p media s :
  trace (world (waitingOn p media s)) = trace (world s) /\
  client (waitingOn p media s) = client s /\
  fresh (world (waitingOn p media s)) = fresh (world s).
Proof. unfold waitingOn. now destruct (promises (world s) !! p). Qed.

Lemma sendEach (sess : Id) (rs : list Blob) c w a :
  forEach (runReaction (Fulfilled sess)) rs (mkSys c w a)
  = (Ok tt, logged (sendLog (trace w) sess rs) (mkSys c w a)).
Proof.
  revert w. induction rs as [|media rs IH]; intros [fr tr pr].
  - cbn [forEach sendLog]. unfold logged. run. now rewrite app_nil_r.
  - cbn [forEach sendLog]. unfold runReaction, sendRealtimeInput, consoleWarn.
    run. destruct (send_throws tr sess media); run; rewrite IH;
      unfold logged; run; rewrite <- !app_assoc; reflexivity.
Qed.

Lemma warnEach (e : Thrown) (rs : list Blob) c w a :
  forEach (runReaction (Rejected e)) rs (mkSys c w a)
  = (Ok tt,
     logged (map (λ _, ConsoleWarn "Failed to send audio") rs) (mkSys c w a)).
Proof.
  revert w. induction rs as [|media rs IH]; intros [fr tr pr].
  - cbn [forEach map]. unfold logged. run. now rewrite app_nil_r.
  - cbn [forEach map]. unfold runReaction, consoleWarn. run. rewrite IH.
    unfold logged. run. now rewrite <- app_assoc.
Qed.

Lemma runReactions_returns (p : Id) (s : Sys) : returns (runReactions p) s.
Proof.
  destruct s as [c [fr tr pr] a]. unfold returns, runReactions. run.
  destruct (pr !! p) as [[[|sess|e] rs]|]; run;
    rewrite ?sendEach, ?warnEach; now exists tt.
Qed.

(** C8, as the code has it. A capture block never sends by itself: the
    callback returns normally, makes no call and leaves the client as it
    was.  With [sessionPromise] null (disconnected) the chunk is dropped
    and nothing is retained.  Otherwise the chunk is attached to the
    session promise: while that promise is pending the chunk waits on it;
    once it is fulfilled each waiting chunk is sent, in order, and a send
    that raises is logged with a warning and swallowed; on a rejected
    promise each waiting chunk gives a warning.  Running the reactions
    never raises. *)
Theorem C8_capture_best_effort (data : list Q) (p : Id) (s : Sys) :
  (returns (onaudioprocess data) s /\
   calls (onaudioprocess data) s = [] /\
   client (exec (onaudioprocess data) s) = client s) /\
  (sessionPromise (client s) = None -> onaudioprocess data s = (Ok tt, s)) /\
  (sessionPromise (client s) = Some p ->
   exec (onaudioprocess data) s = waitingOn p (createPcmBlob data) s) /\
  returns (runReactions p) s /\
  (forall rs, promises (world s) !! p = Some (mkPromise Pending rs) ->
              runReactions p s = (Ok tt, s)) /\
  (forall sess rs,
     promises (world s) !! p = Some (mkPromise (Fulfilled sess) rs) ->
     calls (runReactions p) s = sendLog (trace (world s)) sess rs /\
     filter isSend (calls (runReactions p) s)
       = map (SendRealtimeInput sess) rs /\
     promises (world (exec (runReactions p) s)) !! p
       = Some (mkPromise (Fulfilled sess) [])) /\
  (forall e rs,
     promises (world s) !! p = Some (mkPromise (Rejected e) rs) ->
     calls (runReactions p) s
       = map (λ _, ConsoleWarn "Failed to send audio") rs).
Proof.
  split; [|split; [|split; [|split; [|split; [|split]]]]].
  - split; [unfold returns; rewrite onaudioprocess_spec; now exists tt|].
    split.
    + apply calls_intro. unfold exec. rewrite onaudioprocess_spec. cbn [snd].
      rewrite app_nil_r.
      destruct (sessionPromise (client s)); [apply waitingOn_trace|reflexivity].
    + unfold exec. rewrite onaudioprocess_spec. cbn [snd].
      destruct (sessionPromise (client s)); [apply waitingOn_trace|reflexivity].
  - intros Hn. rewrite onaudioprocess_spec. now rewrite Hn.
  - intros Hp. unfold exec. rewrite onaudioprocess_spec. now rewrite Hp.
  - apply runReactions_returns.
  - intros rs Hp. destruct s as [c [fr tr pr] a]. unfold runReactions. run.
    cbn in Hp. now rewrite Hp.
  - intros sess rs Hp. destruct s as [c [fr tr pr] a]. cbn in Hp.
    assert (E : runReactions p (mkSys c (mkWorld fr tr pr) a)
                = (Ok tt,
                   logged (sendLog tr sess rs)
                     (mkSys c (mkWorld fr tr
                                 (<[p := mkPromise (Fulfilled sess) []]> pr))
                            a))).
    { unfold runReactions. run. rewrite Hp. run. now rewrite sendEach. }
    assert (C : calls (runReactions p) (mkSys c (mkWorld fr tr pr) a)
                = sendLog tr sess rs)
      by (apply calls_intro; unfold exec; now rewrite E).
    split; [exact C|]. split.
    + rewrite C. clear. revert tr. induction rs as [|media rs IH]; intros tr;
        [reflexivity|].
      cbn [sendLog map]. rewrite filter_app, IH.
      destruct (send_throws tr sess media); reflexivity.
    + unfold exec. rewrite E. cbn. apply lookup_insert_eq.
  - intros e rs Hp. destruct s as [c [fr tr pr] a]. cbn in Hp.
    apply calls_intro. unfold exec, runReactions. run. rewrite Hp. run.
    now rewrite warnEach.
Qed.

End Capture.

(** C8 as stated fails while the connection is being opened: no session
    is established ([session] is null and the promise is pending), yet a
    captured chunk is not dropped; it is kept on the promise, one more for
    every block, and sent when the promise is fulfilled. *)
Lemma C8_chunk_kept_while_connecting :
  let s1 := exec (onaudioprocess [0%Q; 1%Q]) pendingSys in
  let s2 := exec (onaudioprocess [1%Q; 0%Q]) s1 in
  let s3 := exec (runReactions (H := quietBrowser) 8%nat)
                 (exec (settle None 8%nat) s2) in
  session (client pendingSys) = None /\
  promises (world pendingSys) !! 8%nat = Some (mkPromise Pending []) /\
  s1 <> pendingSys /\
  promises (world s2) !! 8%nat
    = Some (mkPromise Pending [createPcmBlob [0%Q; 1%Q];
                               createPcmBlob [1%Q; 0%Q]]) /\
  filter isSend (drop (length (trace (world s2))) (trace (world s3)))
    = [SendRealtimeInput 9%nat (createPcmBlob [0%Q; 1%Q]);
       SendRealtimeInput 9%nat (createPcmBlob [1%Q; 0%Q])].
Proof.
  cbv zeta. split; [reflexivity|]. split; [vm_compute; reflexivity|].
  split.
  - intros E.
    assert (E' : promises (world (exec (onaudioprocess [0%Q; 1%Q]) pendingSys))
                   !! 8%nat
                 = promises (world pendingSys) !! 8%nat) by (now rewrite E).
    vm_compute in E'. discriminate E'.
  - split; vm_compute; reflexivity.
Qed.

Lemma C8_capture_best_effort_witness :
  onaudioprocess [0%Q] initial = (Ok tt, initial) /\
  calls (runReactions (H := strictBrowser) 8%nat)
        (exec (onaudioprocess [0%Q])
              (exec (session_close (H := strictBrowser) 9%nat) connectedSys))
  = [SendRealtimeInput 9%nat (createPcmBlob [0%Q]);
     ConsoleWarn "Failed to send audio"].
Proof.
  split.
  - exact (proj1 (proj2 (C8_capture_best_effort (H := strictBrowser)
                           [0%Q] 8%nat initial)) eq_refl).
  - destruct (C8_capture_best_effort (H := strictBrowser) [0%Q] 8%nat
                (exec (onaudioprocess [0%Q])
                   (exec (session_close (H := strictBrowser) 9%nat)
                         connectedSys)))
      as (_ & _ & _ & _ & _ & HF & _).
    destruct (HF 9%nat [createPcmBlob [0%Q]] ltac:(vm_compute; reflexivity))
      as (HC & _).
    rewrite HC. vm_compute. reflexivity.
Defined.

(* ================================================================= *)
(** ** Messages after teardown *)

Section AfterTeardown.
Context `{Browser}.

(** C10. After [disconnect] the output context is null (the gain handle
    is kept as it was), so a message with an audio payload schedules
    nothing and raises nothing: no source is created or started, the
    live-set stays empty, and without an interruption signal the state is
    as it was.  In any state where the output context or the gain is null,
    [scheduleAudioChunk] returns at once and [onmessage] neither creates
    nor starts a source. *)
Theorem C10_audio_after_disconnect_ignored (now : Q)
    (m : LiveServerMessage) (buffer : AudioBuffer) (s0 s' : Sys) :
  let s := exec disconnect s0 in
  (outputAudioContext (client s) = None /\
   outputGain (client s) = outputGain (client s0)) /\
  (scheduleAudioChunk now buffer s = (Ok tt, s) /\
   returns (onmessage now m) s /\
   (signalsInterruption m = false -> onmessage now m s = (Ok tt, s)) /\
   filter isPlayback (calls (onmessage now m) s) = [] /\
   sources (client (exec (onmessage now m) s)) = []) /\
  (outputAudioContext (client s') = None \/ outputGain (client s') = None ->
   scheduleAudioChunk now buffer s' = (Ok tt, s') /\
   returns (onmessage now m) s' /\
   filter isPlayback (calls (onmessage now m) s') = []).
Proof.
  cbv zeta.
  assert (Hn : outputAudioContext (client (exec disconnect s0)) = None)
    by (unfold exec; now rewrite disconnect_spec).
  assert (Hs : sources (client (exec disconnect s0)) = [])
    by (unfold exec; now rewrite disconnect_spec).
  split; [split; [exact Hn|unfold exec; now rewrite disconnect_spec]|].
  split.
  - destruct (audio_ignored_when_down now m buffer _ (or_introl Hn))
      as (H1 & H2 & _ & H4 & H5 & H6).
    repeat split; try assumption.
    rewrite Hs in H6. apply elem_of_nil_inv. intros x Hx.
    exact (proj1 (elem_of_nil x) (H6 x Hx)).
  - intros Hnull.
    destruct (audio_ignored_when_down now m buffer s' Hnull)
      as (H1 & H2 & _ & _ & H5 & _).
    now repeat split.
Qed.

End AfterTeardown.

(* ================================================================= *)
(** ** Sample runs *)

Example decodePayload_abcd :
  decodePayload (H := quietBrowser) "abcd"
  = Ok (mkAudioBuffer [25185 # 32768; 25699 # 32768] 24000).
Proof. vm_compute. reflexivity. Qed.

Example decodePayload_abc :
  decodePayload (H := quietBrowser) "abc" = Throw MalformedAudioError.
Proof. vm_compute. reflexivity. Qed.

Example empty_message_ignored :
  onmessage (H := strictBrowser) 0 emptyMessage connectedSys
  = (Ok tt, connectedSys).
Proof. vm_compute. reflexivity. Qed.

(** The end-to-end run: three capture blocks sent, one audio message
    played as one live source, then an interruption. *)
Example end_to_end :
  let capture data s :=
    exec (runReactions (H := quietBrowser) 8%nat)
         (exec (onaudioprocess data) s) in
  let s1 := capture [0%Q] (capture [1%Q] (capture [(-1)%Q] connectedSys)) in
  let s2 := exec (onmessage (H := quietBrowser) (1 # 2) (audioMessage "abcd"))
                 s1 in
  let s3 := exec (onmessage (H := quietBrowser) (3 # 4)
                    (mkMessage (Some (mkServerContent (Some true) None))))
                 s2 in
  filter isSend (trace (world s1))
    = [SendRealtimeInput 9%nat (createPcmBlob [(-1)%Q]);
       SendRealtimeInput 9%nat (createPcmBlob [1%Q]);
       SendRealtimeInput 9%nat (createPcmBlob [0%Q])] /\
  sources (client s2) = [10%nat] /\
  sources (client s3) = [] /\ nextStartTime (client s3) = 0%Q.
Proof. vm_compute. repeat split. Qed.

Lemma C3_message_routing_witness :
  sources (client (exec (onmessage (H := quietBrowser) (1 # 4)
                           (interruptedAudioMessage "abcd"))
                        (exec (scheduleAudioChunk 0 chunkB)
                              (exec (scheduleAudioChunk 0 chunkA)
                                    connectedSys))))
  = [12%nat].
Proof.
  destruct (C3_message_routing (H := quietBrowser) (1 # 4)
              (interruptedAudioMessage "abcd")
              (exec (scheduleAudioChunk 0 chunkB)
                    (exec (scheduleAudioChunk 0 chunkA) connectedSys))
              "abcd" (mkAudioBuffer [25185 # 32768; 25699 # 32768] 24000))
    as (_ & _ & _ & HA).
  destruct (HA ltac:(split; eexists; vm_compute; reflexivity) eq_refl
               ltac:(vm_compute; reflexivity)) as (_ & _ & _ & HI).
  exact (proj2 (HI eq_refl)).
Defined.

Lemma C7_decode_failure_contained_witness :
  fst (onmessage (H := quietBrowser) 0 (audioMessage "abc") connectedSys)
  = Ok tt.
Proof.
  pose proof (C7_decode_failure_contained (H := quietBrowser) 0 0
                (audioMessage "abc") (audioMessage "abcd") connectedSys
                "abc" "abcd" MalformedAudioError
                (mkAudioBuffer [25185 # 32768; 25699 # 32768] 24000)
                ltac:(split; eexists; vm_compute; reflexivity) eq_refl
                ltac:(vm_compute; reflexivity)) as W.
  cbv zeta in W. exact (proj1 (proj1 W)).
Defined.

Lemma C10_audio_after_disconnect_ignored_witness :
  scheduleAudioChunk 0 chunkA initial = (Ok tt, initial).
Proof.
  pose proof (C10_audio_after_disconnect_ignored (H := quietBrowser) 0
                (audioMessage "abcd") chunkA connectedSys initial) as W.
  cbv zeta in W. destruct W as (_ & _ & HG).
  exact (proj1 (HG (or_introl eq_refl))).
Defined.

(* ================================================================= *)
(** * Further properties of the client *)

(** ** The live-set and the cursor *)

Section LiveSet.
Context `{Browser}.

Lemma duration_nonneg (b : AudioBuffer) : (0 <= duration b)%Q.
Proof. unfold duration, Qle. cbn. lia. Qed.

Lemma set_add_fresh (x : Id) (l : list Id) :
  Forall (λ y, (y < x)%nat) l -> set_add x l = l ++ [x].
Proof.
  intros Hl. unfold set_add. case_bool_decide as Hin; [|reflexivity].
  rewrite Forall_forall in Hl. specialize (Hl x Hin). lia.
Qed.

Lemma set_delete_absent (x : Id) (l : list Id) :
  x ∉ l -> set_delete x l = l.
Proof.
  intros Hx. unfold set_delete. induction l as [|y l IH]; [reflexivity|].
  apply not_elem_of_cons in Hx as [Hne Hx].
  rewrite filter_cons_True by congruence. now rewrite IH.
Qed.

Lemma set_delete_length (x : Id) (l : list Id) :
  NoDup l -> x ∈ l -> S (length (set_delete x l)) = length l.
Proof.
  unfold set_delete. induction 1 as [|y l Hy Hnd IH]; intros Hx.
  - now apply elem_of_nil in Hx.
  - apply elem_of_cons in Hx as [->|Hx].
    + rewrite filter_cons_False by (intros Hc; now apply Hc).
      fold (set_delete y l). now rewrite set_delete_absent.
    + assert (y <> x) by (intros ->; contradiction).
      rewrite filter_cons_True by assumption. cbn [length]. now rewrite IH.
Qed.

Lemma onended_spec (x : Id) (s : Sys) :
  onended x s
  = (Ok tt, mkSys (set_sources (set_delete x (sources (client s))) (client s))
                  (world s) (app s)).
Proof. destruct s as [c w a]. unfold onended. now run. Qed.


Lemma exec_schedule_cases now buffer s :
  (exists ctx gain,
     outputAudioContext (client s) = Some ctx /\
     outputGain (client s) = Some gain /\
     exec (scheduleAudioChunk now buffer) s = scheduled now buffer ctx gain s)
  \/ ((outputAudioContext (client s) = None \/ outputGain (client s) = None) /\
      exec (scheduleAudioChunk now buffer) s = s).
Proof.
  destruct (outputAudioContext (client s)) as [ctx|] eqn:Hc;
    [destruct (outputGain (client s)) as [gain|] eqn:Hg|].
  - left. exists ctx, gain. repeat split. unfold exec.
    now rewrite (scheduleAudioChunk_ready now buffer ctx gain s Hc Hg).
  - right. split; [now right|]. unfold exec.
    now rewrite scheduleAudioChunk_guard by (now right).
  - right. split; [now left|]. unfold exec.
    now rewrite scheduleAudioChunk_guard by (now left).
Qed.

Lemma liveOk_scheduled now buffer ctx gain s :
  liveOk s -> liveOk (scheduled now buffer ctx gain s).
Proof.
  intros [Hnd Hlt]. unfold liveOk, scheduled. cbn.
  rewrite (set_add_fresh _ _ Hlt). split.
  - apply NoDup_app. split; [exact Hnd|]. split; [|apply NoDup_singleton].
    intros x Hx Hx'. apply list_elem_of_singleton in Hx'. subst x.
    rewrite Forall_forall in Hlt. specialize (Hlt _ Hx). lia.
  - apply Forall_app. split.
    + eapply Forall_impl; [exact Hlt|]. cbn. intros; lia.
    + repeat constructor.
Qed.

Lemma liveOk_cleared (c : Client) (w : World) (a : App) :
  sources c = [] -> liveOk (mkSys c w a).
Proof. intros E. unfold liveOk. cbn. rewrite E. split; constructor. Qed.

Lemma liveOk_afterInterruption m s :
  liveOk s -> liveOk (afterInterruption m s).
Proof.
  intros Hs. unfold afterInterruption, exec.
  destruct (signalsInterruption m); [|exact Hs].
  rewrite interrupt_spec. now apply liveOk_cleared.
Qed.

(** X1. The live-set stays a set of existing sources (no source twice,
    none that was not created) under enqueue, natural end, inbound
    messages and disconnect.  An enqueue on a ready client adds exactly the
    new source, at the end; the end of a live source removes exactly that
    source; the end of a source that is no longer live (after an
    interruption) changes nothing. *)
Theorem live_set_bookkeeping (now : Q) (buffer : AudioBuffer)
    (m : LiveServerMessage) (x : Id) (s : Sys) :
  liveOk s ->
  (playbackReady (client s) ->
   sources (client (exec (scheduleAudioChunk now buffer) s))
   = sources (client s) ++ [fresh (world s)]) /\
  (x ∈ sources (client s) ->
   (S (length (sources (client (exec (onended x) s))))
    = length (sources (client s))) /\
   (x ∉ sources (client (exec (onended x) s))) /\
   forall y, y <> x ->
     (y ∈ sources (client (exec (onended x) s)) <-> y ∈ sources (client s))) /\
  (x ∉ sources (client s) -> onended x s = (Ok tt, s)) /\
  liveOk (exec (scheduleAudioChunk now buffer) s) /\
  liveOk (exec (onended x) s) /\
  liveOk (exec (onmessage now m) s) /\
  liveOk (exec disconnect s).
Proof.
  intros Hs. pose proof Hs as [Hnd Hlt].
  split; [|split; [|split; [|split; [|split; [|split]]]]].
  - intros [[ctx Hc] [gain Hg]]. unfold exec.
    rewrite (scheduleAudioChunk_ready now buffer ctx gain s Hc Hg).
    cbn. now apply set_add_fresh.
  - intros Hx. unfold exec. rewrite onended_spec. cbn.
    split; [now apply set_delete_length|]. split.
    + unfold set_delete. rewrite list_elem_of_filter. tauto.
    + intros y Hy. unfold set_delete. rewrite list_elem_of_filter. tauto.
  - intros Hx. rewrite onended_spec, set_delete_absent by exact Hx.
    now destruct s as [[] w a].
  - destruct (exec_schedule_cases now buffer s)
      as [(ctx & gain & _ & _ & ->)|[_ ->]];
      [now apply liveOk_scheduled|exact Hs].
  - unfold exec. rewrite onended_spec. unfold liveOk, set_delete. cbn. split.
    + now apply NoDup_filter.
    + rewrite Forall_forall in *. intros y Hy.
      apply list_elem_of_filter in Hy. now apply Hlt.
  - unfold exec. rewrite onmessage_spec. cbv zeta.
    pose proof (liveOk_afterInterruption m s Hs) as Hp.
    repeat match goal with
           | |- context [match ?t with _ => _ end] => destruct t
           end; cbn [snd]; try exact Hp; now apply liveOk_scheduled.
  - unfold exec. rewrite disconnect_spec. now apply liveOk_cleared.
Qed.

End LiveSet.

Lemma live_set_bookkeeping_witness :
  10%nat ∉ sources (client (exec (onended 10%nat)
                              (exec (scheduleAudioChunk 0 chunkB)
                                    (exec (scheduleAudioChunk 0 chunkA)
                                          connectedSys)))).
Proof.
  pose proof (live_set_bookkeeping (H := quietBrowser) 0 chunkA emptyMessage
                10%nat
                (exec (scheduleAudioChunk 0 chunkB)
                      (exec (scheduleAudioChunk 0 chunkA) connectedSys))
                ltac:(split; vm_compute; repeat constructor;
                      rewrite ?elem_of_cons, ?elem_of_nil; lia)) as W.
  destruct W as (_ & W & _).
  exact (proj1 (proj2 (W ltac:(vm_compute; left)))).
Defined.


Section Bursts.
Context `{Browser}.

Lemma Qle_add_nonneg (a b d : Q) :
  (a <= b)%Q -> (0 <= d)%Q -> (a <= b + d)%Q.
Proof.
  intros Hab Hd. apply Qle_trans with (a + 0)%Q.
  - rewrite Qplus_0_r. apply Qle_refl.
  - now apply Qplus_le_compat.
Qed.

Lemma Qmax_keep (next now : Q) : (now <= next)%Q -> Qmax next now = next.
Proof.
  intros Hle. unfold Qmax, GenericMinMax.gmax.
  destruct (next ?= now)%Q eqn:C; try reflexivity.
  apply Qlt_alt in C. exfalso. exact (Qlt_not_le _ _ C Hle).
Qed.

Lemma startTimes_scheduled ctx gain source start cs :
  startTimes ([CreateBufferSource ctx source; ConnectNode source gain;
               SourceStart source start] ++ cs)
  = start :: startTimes cs.
Proof. reflexivity. Qed.

Lemma playAll_cons now b bs ctx gain s :
  outputAudioContext (client s) = Some ctx ->
  outputGain (client s) = Some gain ->
  playAll now (b :: bs) s = playAll now bs (scheduled now b ctx gain s).
Proof.
  intros Hc Hg. unfold playAll. cbn [forEach]. unfold mbind, M_bind.
  now rewrite (scheduleAudioChunk_ready now b ctx gain s Hc Hg).
Qed.

(** A burst on a cursor that is not behind the clock. *)
Lemma playAll_from (now : Q) (buffers : list AudioBuffer) (ctx gain : Id)
    (s : Sys) :
  outputAudioContext (client s) = Some ctx ->
  outputGain (client s) = Some gain ->
  liveOk s -> (now <= nextStartTime (client s))%Q ->
  fst (playAll now buffers s) = Ok tt /\
  (exists cs,
     trace (world (exec (playAll now buffers) s)) = trace (world s) ++ cs /\
     startTimes cs = startsFrom (nextStartTime (client s)) buffers) /\
  nextStartTime (client (exec (playAll now buffers) s))
  = cursorFrom (nextStartTime (client s)) buffers /\
  sources (client (exec (playAll now buffers) s))
  = sources (client s) ++ seq (fresh (world s)) (length buffers).
Proof.
  revert s. induction buffers as [|b bs IH]; intros s Hc Hg Hs Hle.
  - cbn. split; [reflexivity|]. split; [exists []; now rewrite app_nil_r|].
    split; [reflexivity|]. now rewrite app_nil_r.
  - unfold exec in *. rewrite (playAll_cons now b bs ctx gain s Hc Hg).
    set (s1 := scheduled now b ctx gain s).
    assert (Hn1 : nextStartTime (client s1)
                  = (nextStartTime (client s) + duration b)%Q)
      by (unfold s1, scheduled; cbn; now rewrite Qmax_keep).
    assert (Hle1 : (now <= nextStartTime (client s1))%Q).
    { rewrite Hn1. apply Qle_add_nonneg; [exact Hle|apply duration_nonneg]. }
    destruct (IH s1 Hc Hg (liveOk_scheduled now b ctx gain s Hs) Hle1)
      as (R & (cs & Ht & Hst) & Hcur & Hsrc).
    split; [exact R|]. split; [|split].
    + exists ([CreateBufferSource ctx (fresh (world s));
               ConnectNode (fresh (world s)) gain;
               SourceStart (fresh (world s)) (nextStartTime (client s))]
              ++ cs).
      split.
      * rewrite Ht. unfold s1, scheduled. cbn [world trace].
        rewrite Qmax_keep by exact Hle. now rewrite <- app_assoc.
      * rewrite startTimes_scheduled, Hst, Hn1. reflexivity.
    + rewrite Hcur, Hn1. reflexivity.
    + rewrite Hsrc. unfold s1, scheduled. cbn [client world fresh sources
        set_sources set_nextStartTime length seq].
      rewrite (set_add_fresh _ _ (proj2 Hs)). now rewrite <- app_assoc.
Qed.

(** X2. A burst of buffers enqueued at one clock reading on a ready
    client plays back to back: the first starts at the later of the cursor
    and the clock, every next one exactly at the end of the one before, the
    cursor ends at the last one's end, and the burst adds one live source
    per buffer, in order. *)
Theorem burst_plays_back_to_back (now : Q) (b : AudioBuffer)
    (bs : list AudioBuffer) (s : Sys) :
  playbackReady (client s) -> liveOk s ->
  let first := Qmax (nextStartTime (client s)) now in
  returns (playAll now (b :: bs)) s /\
  startTimes (calls (playAll now (b :: bs)) s) = startsFrom first (b :: bs) /\
  nextStartTime (client (exec (playAll now (b :: bs)) s))
  = cursorFrom first (b :: bs) /\
  sources (client (exec (playAll now (b :: bs)) s))
  = sources (client s) ++ seq (fresh (world s)) (S (length bs)).
Proof.
  intros [[ctx Hc] [gain Hg]] Hs. cbv zeta.
  unfold returns, calls, exec.
  rewrite (playAll_cons now b bs ctx gain s Hc Hg).
  set (s1 := scheduled now b ctx gain s).
  assert (Hle1 : (now <= nextStartTime (client s1))%Q).
  { unfold s1, scheduled. cbn.
    apply Qle_add_nonneg; [apply Q.le_max_r|apply duration_nonneg]. }
  destruct (playAll_from now bs ctx gain s1 Hc Hg
              (liveOk_scheduled now b ctx gain s Hs) Hle1)
    as (R & (cs & Ht & Hst) & Hcur & Hsrc).
  unfold exec in *.
  split; [exists tt; exact R|]. split; [|split].
  - rewrite Ht. unfold s1, scheduled. cbn [world trace].
    rewrite <- app_assoc, drop_app_length, startTimes_scheduled, Hst.
    reflexivity.
  - rewrite Hcur. reflexivity.
  - rewrite Hsrc. unfold s1, scheduled. cbn [client world fresh sources
      set_sources set_nextStartTime seq].
    rewrite (set_add_fresh _ _ (proj2 Hs)). now rewrite <- app_assoc.
Qed.

(** X3. The cursor never moves backwards on an enqueue, in any state,
    and an inbound message without an interruption signal never lowers
    it; the end of a source and a capture block leave it as it is. *)
Theorem cursor_never_moves_back (now : Q) (buffer : AudioBuffer)
    (m : LiveServerMessage) (x : Id) (data : list Q) (s : Sys) :
  (nextStartTime (client s)
   <= nextStartTime (client (exec (scheduleAudioChunk now buffer) s)))%Q /\
  (signalsInterruption m = false ->
   (nextStartTime (client s)
    <= nextStartTime (client (exec (onmessage now m) s)))%Q) /\
  nextStartTime (client (exec (onended x) s)) = nextStartTime (client s) /\
  nextStartTime (client (exec (onaudioprocess data) s))
  = nextStartTime (client s).
Proof.
  assert (Hsch : forall buf ctx gain t,
            (nextStartTime (client t)
             <= nextStartTime (client (scheduled now buf ctx gain t)))%Q).
  { intros buf ctx gain t. unfold scheduled. cbn.
    apply Qle_add_nonneg; [apply Q.le_max_l|apply duration_nonneg]. }
  split; [|split; [|split]].
  - destruct (exec_schedule_cases now buffer s)
      as [(ctx & gain & _ & _ & ->)|[_ ->]]; [apply Hsch|apply Qle_refl].
  - intros Hi. unfold exec. rewrite onmessage_spec. cbv zeta.
    unfold afterInterruption. rewrite Hi.
    repeat match goal with
           | |- context [match ?t with _ => _ end] => destruct t
           end; cbn [snd]; try apply Qle_refl; apply Hsch.
  - unfold exec. now rewrite onended_spec.
  - unfold exec. rewrite onaudioprocess_spec. cbn [snd].
    destruct (sessionPromise (client s)); [|reflexivity].
    now rewrite (proj1 (proj2 (waitingOn_trace _ _ _))).
Qed.

End Bursts.

Lemma burst_plays_back_to_back_witness :
  startTimes (calls (playAll (1 # 2) [chunkA; chunkB; chunkA]) connectedSys)
  = [1 # 2; (1 # 2) + duration chunkA;
     (1 # 2) + duration chunkA + duration chunkB]%Q.
Proof.
  destruct (burst_plays_back_to_back (1 # 2) chunkA [chunkB; chunkA]
              connectedSys
              ltac:(split; eexists; vm_compute; reflexivity)
              ltac:(split; vm_compute; constructor))
    as (_ & HS & _).
  rewrite HS. reflexivity.
Defined.

Lemma cursor_never_moves_back_witness :
  (nextStartTime (client connectedSys)
   <= nextStartTime (client (exec (onmessage (H := quietBrowser) (1 # 2)
                                     (audioMessage "abcd"))
                                  connectedSys)))%Q.
Proof.
  exact (proj1 (proj2 (cursor_never_moves_back (H := quietBrowser) (1 # 2)
                         chunkA (audioMessage "abcd") 0%nat [] connectedSys))
               eq_refl).
Defined.

Section MoreTeardown.
Context `{Browser}.

(** X4. [disconnect] never throws, whatever the state and whatever
    [session.close] does: it leaves the client idle, stops every live
    source, closes both contexts it finds, and leaves the caller's state
    and the promises alone.  A [close] that raises is logged with a
    warning; a session without [close] is just dropped. *)
Theorem disconnect_always_completes (s : Sys) :
  fst (disconnect s) = Ok tt /\
  Idle (client (exec disconnect s)) /\
  app (exec disconnect s) = app s /\
  promises (world (exec disconnect s)) = promises (world s) /\
  (forall x, x ∈ sources (client s) -> SourceStop x ∈ calls disconnect s) /\
  (forall ctx,
     inputAudioContext (client s) = Some ctx \/
     outputAudioContext (client s) = Some ctx ->
     CloseContext ctx ∈ calls disconnect s) /\
  (forall sess e,
     session (client s) = Some sess -> has_close sess = true ->
     close_throws (trace (world s) ++ map SourceStop (sources (client s))) sess
     = Some e ->
     ConsoleWarn "Error closing session" ∈ calls disconnect s) /\
  (forall sess,
     session (client s) = Some sess -> has_close sess = false ->
     SessionClose sess ∉ calls disconnect s).
Proof.
  assert (C : calls disconnect s = disconnectCalls s)
    by (apply calls_intro; unfold exec; now rewrite disconnect_spec).
  rewrite C. unfold exec. rewrite disconnect_spec. cbn [fst snd client world
    app promises].
  split; [reflexivity|]. split; [now repeat split|].
  split; [reflexivity|]. split; [reflexivity|].
  unfold disconnectCalls. cbv zeta.
  split; [|split; [|split]].
  - intros x Hx. apply elem_of_app. left. apply list_elem_of_fmap.
    now exists x.
  - intros ctx [E|E]; rewrite E; cbn [callOn];
      rewrite !elem_of_app, !elem_of_cons; tauto.
  - intros sess e Es Hc Ht. rewrite Es. cbn [closeCalls]. rewrite Hc, Ht.
    rewrite !elem_of_app, !elem_of_cons. tauto.
  - intros sess Es Hc. rewrite Es. cbn [closeCalls]. rewrite Hc.
    rewrite !elem_of_app.
    intros [Hin|[Hin|Hin]].
    + apply list_elem_of_fmap in Hin as (y & Hy & _). discriminate Hy.
    + now apply elem_of_nil in Hin.
    + repeat match goal with
             | Hin : _ \/ _ |- _ => destruct Hin as [Hin|Hin]
             | Hin : _ ∈ _ ++ _ |- _ => apply elem_of_app in Hin as [Hin|Hin]
             | Hin : _ ∈ callOn ?h _ |- _ => destruct h; cbn [callOn] in Hin
             | Hin : _ ∈ _ :: _ |- _ => apply elem_of_cons in Hin as [Hin|Hin]
             | Hin : _ ∈ [] |- _ => now apply elem_of_nil in Hin
             | Hin : _ = _ |- _ => discriminate Hin
             end.
Qed.

(** X5. A second [disconnect] gives nothing back twice: it stops no
    source, closes no context and no session; it only disconnects again
    the gain and analyser nodes whose handles the first one kept, and
    leaves the client as it was. *)
Theorem disconnect_twice (s : Sys) :
  let s1 := exec disconnect s in
  calls disconnect s1
  = callOn (userAnalyser (client s)) DisconnectNode ++
    callOn (aiAnalyser (client s)) DisconnectNode ++
    callOn (outputGain (client s)) DisconnectNode /\
  client (exec disconnect s1) = client s1 /\
  fst (disconnect s1) = Ok tt.
Proof.
  cbv zeta.
  rewrite (calls_intro disconnect _ (disconnectCalls (exec disconnect s)))
    by (unfold exec; now rewrite !disconnect_spec).
  unfold exec. rewrite !disconnect_spec. cbn [fst snd].
  split; [|split; reflexivity].
  unfold disconnectCalls. cbn. now rewrite app_nil_r.
Qed.

End MoreTeardown.

Lemma disconnect_always_completes_witness :
  ConsoleWarn "Error closing session"
  ∈ calls (disconnect (H := strictBrowser))
          (exec (session_close (H := strictBrowser) 9%nat) connectedSys).
Proof.
  exact (proj1 (proj2 (proj2 (proj2 (proj2 (proj2 (proj2
           (disconnect_always_completes (H := strictBrowser)
              (exec (session_close (H := strictBrowser) 9%nat)
                    connectedSys))))))))
           9%nat (mkThrown true "already closed")
           ltac:(vm_compute; reflexivity) ltac:(reflexivity)
           ltac:(vm_compute; reflexivity)).
Defined.

(* ================================================================= *)
(** ** Connecting and the caller's handlers *)

(** Run [connect] on a state given field by field. *)
Ltac connect_run :=
  unfold established, connect, connect_open, connect_established,
    connect_catch, newAudioContext, settle, await, consoleError;
  crun; rewrite ?lookup_insert_eq; crun; rewrite ?lookup_insert_eq; crun;
  rewrite ?insert_insert_eq.

Section MoreConnecting.
Context `{Browser}.

Lemma firstFailure_None (o : Outcome) :
  firstFailure o = None -> o = mkOutcome None None None None.
Proof. destruct o as [[|] [|] [|] [|]]; cbn; congruence. Qed.

(** A [connect] that meets no failure does not call the callbacks. *)
Lemma connect_ok (o : Outcome) (config : LiveConfig) (onDisconnect : M unit)
    (onError : Thrown -> M unit) (s : Sys) :
  firstFailure o = None ->
  connect o config onDisconnect onError s = (Ok tt, established o config s).
Proof.
  intros Ho. rewrite (firstFailure_None o Ho).
  destruct s as [[f1 f2 f3 f4 f5 f6 f7 f8 f9 f10 f11] [fr tr pr] a].
  connect_run. reflexivity.
Qed.

(** X6. A [connect] that meets no failure returns without calling either
    callback and leaves the client active: input context at 16 kHz, output
    context at 24 kHz, a script processor of 4096 frames, and the session
    handle the fulfilled promise holds.  It keeps the cursor and the
    live-set it found and gives nothing back: it closes no context,
    disconnects no node, stops no source and closes no session, also when
    the client was already active. *)
Theorem connect_success (o : Outcome) (config : LiveConfig)
    (onDisconnect : M unit) (onError : Thrown -> M unit) (s : Sys) :
  firstFailure o = None ->
  let s1 := established o config s in
  connect o config onDisconnect onError s = (Ok tt, s1) /\
  Active (client s1) /\ app s1 = app s /\
  nextStartTime (client s1) = nextStartTime (client s) /\
  sources (client s1) = sources (client s) /\
  (exists ictx octx pr p sess,
     inputAudioContext (client s1) = Some ictx /\
     outputAudioContext (client s1) = Some octx /\
     processor (client s1) = Some pr /\
     sessionPromise (client s1) = Some p /\
     session (client s1) = Some sess /\
     promises (world s1) !! p = Some (mkPromise (Fulfilled sess) []) /\
     NewAudioContext ictx 16000 ∈ calls (connect o config onDisconnect onError) s /\
     NewAudioContext octx 24000 ∈ calls (connect o config onDisconnect onError) s /\
     CreateScriptProcessor ictx pr 4096
       ∈ calls (connect o config onDisconnect onError) s /\
     LiveConnect p config ∈ calls (connect o config onDisconnect onError) s) /\
  filter isTeardown (calls (connect o config onDisconnect onError) s) = [].
Proof.
  intros Ho. cbv zeta.
  pose proof (connect_ok o config onDisconnect onError s Ho) as E.
  split; [exact E|]. unfold calls, exec. rewrite E. cbn [snd]. clear E.
  rewrite (firstFailure_None o Ho).
  destruct s as [[f1 f2 f3 f4 f5 f6 f7 f8 f9 f10 f11] [fr tr pr] a].
  connect_run. rewrite <- ?app_assoc. rewrite drop_app_length.
  split; [repeat split; eexists; reflexivity|].
  split; [reflexivity|]. split; [reflexivity|]. split; [reflexivity|].
  split; [|reflexivity].
  do 5 eexists. repeat (split; [reflexivity|]).
  split; [apply lookup_insert_eq|].
  rewrite !elem_of_app, !elem_of_cons. tauto.
Qed.




(** What [connect] does when a step fails, for any callbacks. *)
Lemma connect_fails (o : Outcome) (config : LiveConfig)
    (onDisconnect : M unit) (onError : Thrown -> M unit) (s : Sys)
    (e : Thrown) :
  firstFailure o = Some e ->
  exists mid : Sys,
    connect o config onDisconnect onError s
    = onError (if isError e then e else mkThrown true "Failed to connect")
              (exec disconnect (exec (consoleError "Connection failed") mid))
    /\ app mid = app s.
Proof.
  destruct s as [[f1 f2 f3 f4 f5 f6 f7 f8 f9 f10 f11] [fr tr pr] a].
  destruct o as [[ei|] [eo|] [eg|] [el|]];
    cbn [firstFailure newInputContext newOutputContext getUserMedia
         liveConnect]; intros [= <-];
    unfold connect, connect_open, connect_established, connect_catch,
      newAudioContext, settle, await, consoleError; crun;
    rewrite ?lookup_insert_eq; crun; rewrite ?lookup_insert_eq; crun.
  all: match goal with
       | |- context [disconnect ?st] =>
           match st with
           | mkSys ?c (mkWorld ?f (?t ++ [ConsoleError _]) ?p) ?ap =>
               exists (mkSys c (mkWorld f t p) ap)
           end
       end.
  all: split; [|reflexivity].
  all: unfold consoleError; crun; rewrite !disconnect_spec; reflexivity.
Qed.

(** [handleConnect] around its call of [connect]. *)
Lemma handleConnect_unfold (o : Outcome) (config : LiveConfig) (s : Sys) :
  handleConnect o config s =
  match connect o config app_onDisconnect app_onError
          (mkSys (client s) (world s)
                 (mkApp connecting None (uiUserAnalyser (app s))
                        (uiAiAnalyser (app s)) (isMicMuted (app s)))) with
  | (Ok _, s') =>
      (Ok tt,
       mkSys (client s') (world s')
             (mkApp connected (errorMsg (app s')) (userAnalyser (client s'))
                    (aiAnalyser (client s')) (isMicMuted (app s'))))
  | (Throw e, s') => (Throw e, s')
  end.
Proof.
  unfold handleConnect, setState, gets. unfold mbind, M_bind. cbn [fst snd].
  destruct (connect o config app_onDisconnect app_onError _) as [[|] s'];
    reflexivity.
Qed.

(** X8. When [connect] fails, [handleConnect] still ends by setting the
    status to [connected]: the error text the callback stored is kept,
    the client is idle, and the page shows the session view with the End
    Session control and active visualizers on the analyser handles the
    client still holds, not the connect trigger. *)
Theorem handleConnect_failure_ends_connected (o : Outcome)
    (config : LiveConfig) (s : Sys) (e : Thrown) :
  firstFailure o = Some e ->
  let s1 := exec (handleConnect o config) s in
  fst (handleConnect o config s) = Ok tt /\
  status (app s1) = connected /\
  errorMsg (app s1)
  = Some (message (if isError e then e
                   else mkThrown true "Failed to connect")) /\
  Idle (client s1) /\
  uiUserAnalyser (app s1) = userAnalyser (client s1) /\
  uiAiAnalyser (app s1) = aiAnalyser (client s1) /\
  showsConnectTrigger (status (app s1)) = false /\
  controlsActive (status (app s1)) = true /\
  aiOrbActive (app s1) = true.
Proof.
  intros Ho. cbv zeta. unfold exec. rewrite handleConnect_unfold.
  destruct (connect_fails o config app_onDisconnect app_onError
              (mkSys (client s) (world s)
                     (mkApp connecting None (uiUserAnalyser (app s))
                            (uiAiAnalyser (app s)) (isMicMuted (app s))))
              e Ho) as (mid & -> & Hm).
  unfold exec. rewrite disconnect_spec.
  unfold app_onError, consoleError, emit, setState.
  unfold mbind, M_bind. cbn [fst snd client world app status errorMsg
    uiUserAnalyser uiAiAnalyser isMicMuted].
  now repeat split.
Qed.


(** X9. When [connect] succeeds, [handleConnect] clears the error text,
    sets the status to [connected] and hands the client's two new
    analysers to the visualizers; the client is active and the settings
    button is disabled. *)
Theorem handleConnect_success (o : Outcome) (config : LiveConfig) (s : Sys) :
  firstFailure o = None ->
  let s1 := exec (handleConnect o config) s in
  fst (handleConnect o config s) = Ok tt /\
  status (app s1) = connected /\ errorMsg (app s1) = None /\
  isMicMuted (app s1) = isMicMuted (app s) /\
  Active (client s1) /\
  is_Some (uiUserAnalyser (app s1)) /\
  uiUserAnalyser (app s1) = userAnalyser (client s1) /\
  is_Some (uiAiAnalyser (app s1)) /\
  uiAiAnalyser (app s1) = aiAnalyser (client s1) /\
  uiUserAnalyser (app s1) <> uiAiAnalyser (app s1) /\
  settingsButtonDisabled (status (app s1)) = true.
Proof.
  intros Ho. cbv zeta. unfold exec. rewrite handleConnect_unfold.
  rewrite (connect_ok o config _ _ _ Ho). rewrite (firstFailure_None o Ho).
  destruct s as [[f1 f2 f3 f4 f5 f6 f7 f8 f9 f10 f11] [fr tr pr]
                 [st em ua aa mm]].
  cbn [client world app uiUserAnalyser uiAiAnalyser isMicMuted].
  connect_run. cbn [fst snd].
  repeat split; try (eexists; reflexivity). intros [= Hc]. lia.
Qed.

(** X10. [handleDisconnect] never throws and, from any state, leaves the
    client idle and the status [disconnected] with the visualizers
    detached and the connect trigger shown; the error text and the mute
    flag are kept.  After it a capture block is dropped. *)
Theorem handleDisconnect_resets (data : list Q) (s : Sys) :
  let s1 := exec handleDisconnect s in
  fst (handleDisconnect s) = Ok tt /\
  Idle (client s1) /\
  status (app s1) = disconnected /\
  uiUserAnalyser (app s1) = None /\ uiAiAnalyser (app s1) = None /\
  errorMsg (app s1) = errorMsg (app s) /\
  isMicMuted (app s1) = isMicMuted (app s) /\
  showsConnectTrigger (status (app s1)) = true /\
  controlsActive (status (app s1)) = false /\
  onaudioprocess data s1 = (Ok tt, s1).
Proof.
  cbv zeta.
  assert (E : handleDisconnect s
              = (Ok tt,
                 mkSys (tornDown (client s))
                       (mkWorld (fresh (world s))
                                (trace (world s) ++ disconnectCalls s)
                                (promises (world s)))
                       (mkApp disconnected (errorMsg (app s)) None None
                              (isMicMuted (app s))))).
  { unfold handleDisconnect, setState. unfold mbind, M_bind.
    now rewrite disconnect_spec. }
  unfold exec. rewrite E. cbn [fst snd client world app
    status errorMsg uiUserAnalyser uiAiAnalyser isMicMuted].
  repeat (split; [first [reflexivity | now repeat split]|]).
  now rewrite onaudioprocess_spec.
Qed.

End MoreConnecting.

(** X11. [toggleMic] flips the mute flag and nothing else: toggling twice
    restores the state, the client and the world are untouched, and a
    capture block is encoded and queued for sending in the same way
    whether the microphone is shown as muted or not; only the user's
    visualizer goes inactive. *)
Theorem toggleMic_only_display (data : list Q) (s : Sys) :
  let s1 := exec toggleMic s in
  fst (toggleMic s) = Ok tt /\
  isMicMuted (app s1) = negb (isMicMuted (app s)) /\
  client s1 = client s /\ world s1 = world s /\
  status (app s1) = status (app s) /\
  exec toggleMic s1 = s /\
  client (exec (onaudioprocess data) s1)
  = client (exec (onaudioprocess data) s) /\
  world (exec (onaudioprocess data) s1)
  = world (exec (onaudioprocess data) s) /\
  (isMicMuted (app s) = false -> userOrbActive (app s1) = false).
Proof.
  cbv zeta. destruct s as [c w [st em ua aa mm]].
  unfold exec, toggleMic, setState. cbn [fst snd client world app status
    isMicMuted errorMsg uiUserAnalyser uiAiAnalyser].
  repeat (split; [reflexivity|]).
  split; [now rewrite negb_involutive|].
  rewrite !onaudioprocess_spec. cbn [snd client].
  split; [|split].
  - destruct (sessionPromise c); [|reflexivity].
    now rewrite !(proj1 (proj2 (waitingOn_trace _ _ _))).
  - destruct (sessionPromise c) as [p|]; [|reflexivity].
    unfold waitingOn. cbn. now destruct (promises w !! p).
  - intros ->. unfold userOrbActive. cbn. apply andb_false_r.
Qed.

Lemma connect_success_witness :
  Active (client (established (H := quietBrowser) allGood sampleConfig
                              initial)).
Proof.
  exact (proj1 (proj2 (connect_success (H := quietBrowser) allGood
                         sampleConfig (mret tt) (λ _, mret tt) initial
                         eq_refl))).
Defined.


Lemma handleConnect_failure_ends_connected_witness :
  status (app (exec (handleConnect (H := strictBrowser)
                       (mkOutcome None None (Some (mkThrown false "denied"))
                                  None)
                       sampleConfig) initial))
  = connected.
Proof.
  exact (proj1 (proj2 (handleConnect_failure_ends_connected
                         (H := strictBrowser)
                         (mkOutcome None None (Some (mkThrown false "denied"))
                                    None)
                         sampleConfig initial (mkThrown false "denied")
                         eq_refl))).
Defined.

Lemma handleConnect_success_witness :
  errorMsg (app (exec (handleConnect (H := quietBrowser) allGood sampleConfig)
                      initial))
  = None.
Proof.
  exact (proj1 (proj2 (proj2 (handleConnect_success (H := quietBrowser)
                                allGood sampleConfig initial eq_refl)))).
Defined.

Lemma toggleMic_only_display_witness :
  userOrbActive (app (exec toggleMic connectedSys)) = false.
Proof.
  exact (proj2 (proj2 (proj2 (proj2 (proj2 (proj2 (proj2 (proj2
           (toggleMic_only_display [] connectedSys))))))))
           ltac:(vm_compute; reflexivity)).
Defined.

(* ================================================================= *)
(** ** Capture order and message parts *)

Section MoreCapture.
Context `{Browser}.

Lemma captureAll_spec (blocks : list (list Q)) (p : Id) (st : PromiseState)
    (rs : list Blob) (c : Client) (fr : Id) (tr : list Effect)
    (pr : gmap Id Promise) (a : App) :
  sessionPromise c = Some p ->
  pr !! p = Some (mkPromise st rs) ->
  exists pr',
    captureAll blocks (mkSys c (mkWorld fr tr pr) a)
    = (Ok tt, mkSys c (mkWorld fr tr pr') a) /\
    pr' !! p = Some (mkPromise st (rs ++ map createPcmBlob blocks)).
Proof.
  intros Hp. revert rs pr. induction blocks as [|b bs IH]; intros rs pr Hv.
  - exists pr. split; [reflexivity|]. now rewrite app_nil_r.
  - unfold captureAll in *. cbn [forEach]. unfold mbind, M_bind.
    rewrite onaudioprocess_spec. cbn [client]. rewrite Hp.
    unfold waitingOn. cbn [world promises client fresh trace app]. rewrite Hv.
    cbn [pstate reactions].
    destruct (IH (rs ++ [createPcmBlob b])
                 (<[p := mkPromise st (rs ++ [createPcmBlob b])]> pr)
                 (lookup_insert_eq _ _ _)) as (pr' & E & Hl).
    exists pr'. split; [exact E|]. rewrite Hl. cbn [map].
    now rewrite <- app_assoc.
Qed.

Lemma runReactions_fulfilled (p sess : Id) (rs : list Blob) (c : Client)
    (fr : Id) (tr : list Effect) (pr : gmap Id Promise) (a : App) :
  pr !! p = Some (mkPromise (Fulfilled sess) rs) ->
  runReactions p (mkSys c (mkWorld fr tr pr) a)
  = (Ok tt,
     mkSys c (mkWorld fr (tr ++ sendLog tr sess rs)
                      (<[p := mkPromise (Fulfilled sess) []]> pr)) a).
Proof.
  intros Hp. unfold runReactions. run. rewrite Hp. run. now rewrite sendEach.
Qed.

Lemma filter_isSend_sendLog (h : list Effect) (sess : Id) (rs : list Blob) :
  filter isSend (sendLog h sess rs) = map (SendRealtimeInput sess) rs.
Proof.
  revert h. induction rs as [|media rs IH]; intros h; [reflexivity|].
  cbn [sendLog map]. rewrite filter_app, IH.
  destruct (send_throws h sess media); reflexivity.
Qed.

(** X12. Capture blocks queued on an established session are sent in the
    order they were captured, each exactly once: the callbacks themselves
    make no call, the reactions then make one send per block, in order,
    and running the reactions again sends nothing. *)
Theorem capture_sent_in_order (blocks : list (list Q)) (p sess : Id)
    (s : Sys) :
  sessionPromise (client s) = Some p ->
  promises (world s) !! p = Some (mkPromise (Fulfilled sess) []) ->
  let s1 := exec (captureAll blocks) s in
  let s2 := exec (runReactions p) s1 in
  fst (captureAll blocks s) = Ok tt /\
  calls (captureAll blocks) s = [] /\
  filter isSend (calls (runReactions p) s1)
  = map (λ b, SendRealtimeInput sess (createPcmBlob b)) blocks /\
  calls (runReactions p) s2 = [].
Proof.
  destruct s as [c [fr tr pr] a]. cbn [client world promises].
  intros Hp Hv. cbv zeta.
  destruct (captureAll_spec blocks p (Fulfilled sess) [] c fr tr pr a Hp Hv)
    as (pr' & E & Hl).
  cbn [app] in Hl. unfold calls, exec. rewrite E. cbn [fst snd world trace].
  rewrite (runReactions_fulfilled p sess _ c fr tr pr' a Hl).
  cbn [snd world trace].
  rewrite (runReactions_fulfilled p sess [] c fr _ _ a
             (lookup_insert_eq _ _ _)).
  cbn [snd world trace sendLog].
  split; [reflexivity|]. split; [apply drop_all|].
  split.
  - rewrite drop_app_length, filter_isSend_sendLog.
    rewrite app_nil_l. apply map_map.
  - rewrite app_nil_r. apply drop_all.
Qed.

(** X13. Only the first part of a model turn is read: what follows it in
    [parts] changes nothing, so audio carried by a later part is never
    played. *)
Theorem later_parts_ignored (now : Q) (i : option bool) (p : Part)
    (ps : list Part) (s : Sys) :
  let message parts :=
    mkMessage (Some (mkServerContent i (Some (mkModelTurn (Some parts))))) in
  onmessage now (message (p :: ps)) s = onmessage now (message [p]) s /\
  (inlineData p = None ->
   audioPayload (message (p :: ps)) = None /\
   onmessage now (message (p :: ps)) s
   = (Ok tt, afterInterruption (message (p :: ps)) s)).
Proof.
  cbv zeta. split.
  - rewrite !onmessage_spec. reflexivity.
  - intros Hp. assert (Ha : audioPayload
      (mkMessage (Some (mkServerContent i
         (Some (mkModelTurn (Some (p :: ps))))))) = None).
    { unfold audioPayload, base64Audio. cbn. now rewrite Hp. }
    split; [exact Ha|]. rewrite onmessage_spec. cbv zeta. now rewrite Ha.
Qed.

End MoreCapture.

(** X14. [onerror] always hands the caller an [Error] with a text that is
    not empty: the message of the stream's error, or "Unknown Live API
    Error" when it has none; with the caller's callback the status becomes
    [error] and that text is what is shown. *)
Theorem onerror_shows_message (err : Thrown) (s : Sys) :
  let s1 := exec (onerror app_onError err) s in
  fst (onerror app_onError err s) = Ok tt /\
  status (app s1) = error /\
  errorMsg (app s1) = Some (shownMessage err) /\
  shownMessage err <> EmptyString /\
  (message err <> EmptyString -> shownMessage err = message err) /\
  uiUserAnalyser (app s1) = None /\ uiAiAnalyser (app s1) = None /\
  showsConnectTrigger (status (app s1)) = true.
Proof.
  cbv zeta. destruct s as [c [fr tr pr] a].
  unfold onerror, app_onError, consoleError, shownMessage. run. cbn [message].
  repeat split; destruct (message err); congruence.
Qed.

Lemma capture_sent_in_order_witness :
  filter isSend
    (calls (runReactions (H := quietBrowser) 8%nat)
           (exec (captureAll [[1%Q]; [0%Q]; [(-1)%Q]]) connectedSys))
  = [SendRealtimeInput 9%nat (createPcmBlob [1%Q]);
     SendRealtimeInput 9%nat (createPcmBlob [0%Q]);
     SendRealtimeInput 9%nat (createPcmBlob [(-1)%Q])].
Proof.
  exact (proj1 (proj2 (proj2 (capture_sent_in_order (H := quietBrowser)
                                [[1%Q]; [0%Q]; [(-1)%Q]] 8%nat 9%nat
                                connectedSys
                                ltac:(vm_compute; reflexivity)
                                ltac:(vm_compute; reflexivity))))).
Defined.

Lemma later_parts_ignored_witness :
  audioPayload
    (mkMessage (Some (mkServerContent None (Some (mkModelTurn (Some
       [mkPart None; mkPart (Some (mkInlineData (Some "abcd")))]))))))
  = None.
Proof.
  exact (proj1 (proj2 (later_parts_ignored (H := quietBrowser) 0 None
                         (mkPart None)
                         [mkPart (Some (mkInlineData (Some "abcd")))]
                         connectedSys)
                      eq_refl)).
Defined.

Lemma onerror_shows_message_witness :
  shownMessage (mkThrown true "socket closed") = "socket closed".
Proof.
  exact (proj1 (proj2 (proj2 (proj2 (proj2
           (onerror_shows_message (mkThrown true "socket closed")
                                  initial)))))
           ltac:(discriminate)).
Defined.

(* ================================================================= *)
(** ** The visualizer *)

Module OrbFacts.
Import OrbVisualizer.
Open Scope Z_scope.

(** The index on integers: [i * length / 120], rounded down. *)
Lemma binIndex_div (i : Z) (len : nat) :
  binIndex i len = (i * Z.of_nat len) / 120.
Proof.
  unfold binIndex, points, Qfloor, Qdiv, Qmult, Qinv, inject_Z.
  cbn [Qnum Qden]. f_equal; lia.
Qed.

Lemma sum_bounds (dataArray : list Z) (acc : Z) :
  Forall (λ b, 0 <= b <= 255) dataArray ->
  acc <= foldl Z.add acc dataArray
      <= acc + 255 * Z.of_nat (length dataArray).
Proof.
  intros Hb. revert acc. induction Hb as [|b l Hb _ IH]; intros acc.
  - cbn. lia.
  - cbn [foldl length]. specialize (IH (acc + b)). lia.
Qed.

(** X15. For every point of the ring ([i] from 0 to [points]) and every
    non-empty frequency array, the bin read exists (never [undefined]) and
    lies in the lower half of the array: the index is between 0 and half
    the length.  On an empty array nothing can be read. *)
Theorem ring_reads_lower_half (dataArray : list Z) (i : Z) :
  0 <= i <= points ->
  (dataArray <> [] ->
   0 <= binIndex i (length dataArray) <= Z.of_nat (length dataArray) / 2 /\
   exists v, binValue dataArray i = Some v /\ v ∈ dataArray) /\
  binValue [] i = None.
Proof.
  unfold points. intros Hi. split.
  - intros Hne.
    assert (Hlen : 0 < Z.of_nat (length dataArray))
      by (destruct dataArray; [congruence|cbn [length]; lia]).
    set (n := Z.of_nat (length dataArray)) in *.
    assert (Hb : 0 <= binIndex i (length dataArray) <= n / 2).
    { rewrite binIndex_div. fold n. split.
      - apply Z.div_pos; nia.
      - replace (n / 2) with ((60 * n) / (60 * 2))
          by (apply Z.div_mul_cancel_l; lia).
        apply Z.div_le_mono; [lia|nia]. }
    split; [exact Hb|].
    unfold binValue. cbv zeta.
    destruct (binIndex i (length dataArray) <? 0) eqn:E;
      [apply Z.ltb_lt in E; lia|].
    assert (Hlt : (Z.to_nat (binIndex i (length dataArray))
                   < length dataArray)%nat).
    { pose proof (Z.div_mod n 2 ltac:(lia)).
      pose proof (Z.mod_pos_bound n 2 ltac:(lia)). unfold n in *. lia. }
    destruct (lookup_lt_is_Some_2 dataArray _ Hlt) as [v Hv].
    exists v. split; [exact Hv|]. eapply list_elem_of_lookup_2. exact Hv.
  - unfold binValue. cbv zeta. rewrite binIndex_div. cbn [length].
    rewrite Z.mul_0_r. reflexivity.
Qed.

Lemma ring_reads_lower_half_witness :
  binValue [10; 20; 30; 40; 50; 60; 70; 80] 60 = Some 50.
Proof.
  destruct (ring_reads_lower_half [10; 20; 30; 40; 50; 60; 70; 80] 60
              ltac:(vm_compute; split; discriminate))
    as [Hr _].
  destruct (Hr ltac:(discriminate)) as (_ & v & Hv & _).
  rewrite Hv. vm_compute in Hv. exact (eq_sym Hv).
Defined.

(** X16. With frequency bytes (0 to 255) in a non-empty array, the
    average level is between 0 and 255 and the glow between 10 and 382.5;
    without an analyser, or when the orb is not active, the average is 0
    and the glow of an inactive orb is 10. *)
Theorem level_and_glow_bounds (dataArray : list Z) (isActive : bool) :
  Forall (λ b, 0 <= b <= 255) dataArray -> dataArray <> [] ->
  (0 <= average (Some dataArray) isActive <= 255)%Q /\
  (10 <= glow isActive (average (Some dataArray) isActive) <= 765 # 2)%Q /\
  average None isActive = 0%Q /\
  average (Some dataArray) false = 0%Q /\
  glow false (average (Some dataArray) false) = 10%Q.
Proof.
  intros Hb Hne.
  assert (Hlen : 0 < Z.of_nat (length dataArray))
    by (destruct dataArray; [congruence|cbn [length]; lia]).
  pose proof (sum_bounds dataArray 0 Hb) as Hs. fold (sum dataArray) in Hs.
  assert (Ha : (0 <= average (Some dataArray) isActive <= 255)%Q).
  { unfold average. destruct isActive; [|split; discriminate].
    split.
    - apply Qle_shift_div_l.
      + unfold Qlt, inject_Z. cbn. lia.
      + unfold Qle, Qmult, inject_Z. cbn. lia.
    - apply Qle_shift_div_r.
      + unfold Qlt, inject_Z. cbn. lia.
      + unfold Qle, Qmult, inject_Z. cbn [Qnum Qden]. lia. }
  split; [exact Ha|]. split; [|now repeat split].
  unfold glow. destruct isActive; [|split; [apply Qle_refl|discriminate]].
  split; [apply Q.le_max_l|].
  apply Q.max_lub; [discriminate|].
  destruct Ha as [_ Hu]. revert Hu.
  generalize (average (Some dataArray) true). intros [n d].
  unfold Qle, Qmult. cbn [Qnum Qden]. rewrite !Pos2Z.inj_mul. lia.
Qed.

Lemma level_and_glow_bounds_witness :
  (average (Some [0; 255; 128; 1]%Z) true <= 255)%Q.
Proof.
  exact (proj2 (proj1 (level_and_glow_bounds [0; 255; 128; 1]%Z true
                         ltac:(repeat constructor; discriminate)
                         ltac:(discriminate)))).
Defined.

End OrbFacts.
